(** * ReFiInfraDAOFHE: a shallow embedding of [contracts/ReFi_Infra_DAO.sol]

    The contract accumulates encrypted contributions and usage reports into
    per-batch accumulators, rate-limits its callers, and drives a decryption
    round trip whose callback is guarded by a replay flag and a state hash.

    Storage mappings are finite maps read with the Solidity default value,
    [uint256] is [N] with the checked arithmetic of Solidity 0.8 written out,
    a reverting call is a [Revert] result that carries no state, and the FHE
    library, [keccak256] and [address(this)] are an interface the development
    is parametric in. *)

From Stdlib Require Import NArith List Bool Lia Sorted.
From stdpp Require Import base option gmap list.
Import ListNotations.

Local Open Scope N_scope.

(** ** Machine types *)

Abbreviation address := N (only parsing).
Abbreviation uint256 := N (only parsing).
Abbreviation bytes32 := N (only parsing).
(** [euint32] is a user-defined value type over [bytes32]: an opaque handle. *)
Abbreviation euint32 := N (only parsing).
Abbreviation bytes := (list Byte.byte) (only parsing).

Definition MAX_UINT256 : N := 2 ^ 256 - 1.

(** Reading [m[k]] from a Solidity mapping: absent keys read as the default. *)
Definition mget {V : Type} (dflt : V) (m : gmap N V) (k : N) : V :=
  default dflt (m !! k).

(** ** Errors, events, results *)

Inductive Error : Type :=
| NotOwner
| NotProvider
| PausedError
| CooldownActive
| BatchNotOpen
| ReplayDetected
| StateMismatch
| InvalidBatchId
| ArithmeticPanic      (* Panic(0x11): checked arithmetic overflowed *)
| SliceOutOfBounds     (* a byte slice reaches past the end of the buffer *)
| InvalidProof.        (* FHE.checkSignatures rejected the oracle response *)

Inductive Event : Type :=
| OwnershipTransferred (previousOwner newOwner : address)
| ProviderAdded (provider : address)
| ProviderRemoved (provider : address)
| Paused (account : address)
| Unpaused (account : address)
| CooldownSecondsUpdated (oldCooldownSeconds newCooldownSeconds : uint256)
| BatchOpened (batchId : uint256)
| BatchClosed (batchId : uint256)
| ContributionSubmitted (contributor : address) (batchId : uint256) (encryptedAmount : uint256)
| UsageReported (provider : address) (batchId : uint256) (encryptedUsage : uint256)
| DecryptionRequested (requestId batchId : uint256)
| DecryptionCompleted (requestId batchId totalContributions totalUsage : uint256).

Inductive Result (A : Type) : Type :=
| Ok (a : A)
| Revert (e : Error).
Arguments Ok {A} a.
Arguments Revert {A} e.

(** ** Storage *)

Record DecryptionContext : Type := mkContext {
  batchId : uint256;
  stateHash : bytes32;
  processed : bool
}.

Definition noContext : DecryptionContext :=
  {| batchId := 0; stateHash := 0; processed := false |}.

Record State : Type := mkState {
  owner : address;
  isProvider : gmap N bool;
  paused : bool;
  cooldownSeconds : uint256;
  lastSubmissionTime : gmap N N;
  lastDecryptionRequestTime : gmap N N;
  currentBatchId : uint256;
  isBatchOpen : gmap N bool;
  totalContributionsEncrypted : gmap N N;
  totalUsageEncrypted : gmap N N;
  decryptionContexts : gmap N DecryptionContext
}.

Definition set_owner (v : address) (s : State) : State :=
  mkState v (isProvider s) (paused s) (cooldownSeconds s) (lastSubmissionTime s)
    (lastDecryptionRequestTime s) (currentBatchId s) (isBatchOpen s)
    (totalContributionsEncrypted s) (totalUsageEncrypted s) (decryptionContexts s).

Definition set_isProvider (v : gmap N bool) (s : State) : State :=
  mkState (owner s) v (paused s) (cooldownSeconds s) (lastSubmissionTime s)
    (lastDecryptionRequestTime s) (currentBatchId s) (isBatchOpen s)
    (totalContributionsEncrypted s) (totalUsageEncrypted s) (decryptionContexts s).

Definition set_paused (v : bool) (s : State) : State :=
  mkState (owner s) (isProvider s) v (cooldownSeconds s) (lastSubmissionTime s)
    (lastDecryptionRequestTime s) (currentBatchId s) (isBatchOpen s)
    (totalContributionsEncrypted s) (totalUsageEncrypted s) (decryptionContexts s).

Definition set_cooldownSeconds (v : uint256) (s : State) : State :=
  mkState (owner s) (isProvider s) (paused s) v (lastSubmissionTime s)
    (lastDecryptionRequestTime s) (currentBatchId s) (isBatchOpen s)
    (totalContributionsEncrypted s) (totalUsageEncrypted s) (decryptionContexts s).

Definition set_lastSubmissionTime (v : gmap N N) (s : State) : State :=
  mkState (owner s) (isProvider s) (paused s) (cooldownSeconds s) v
    (lastDecryptionRequestTime s) (currentBatchId s) (isBatchOpen s)
    (totalContributionsEncrypted s) (totalUsageEncrypted s) (decryptionContexts s).

Definition set_lastDecryptionRequestTime (v : gmap N N) (s : State) : State :=
  mkState (owner s) (isProvider s) (paused s) (cooldownSeconds s) (lastSubmissionTime s)
    v (currentBatchId s) (isBatchOpen s)
    (totalContributionsEncrypted s) (totalUsageEncrypted s) (decryptionContexts s).

Definition set_currentBatchId (v : uint256) (s : State) : State :=
  mkState (owner s) (isProvider s) (paused s) (cooldownSeconds s) (lastSubmissionTime s)
    (lastDecryptionRequestTime s) v (isBatchOpen s)
    (totalContributionsEncrypted s) (totalUsageEncrypted s) (decryptionContexts s).

Definition set_isBatchOpen (v : gmap N bool) (s : State) : State :=
  mkState (owner s) (isProvider s) (paused s) (cooldownSeconds s) (lastSubmissionTime s)
    (lastDecryptionRequestTime s) (currentBatchId s) v
    (totalContributionsEncrypted s) (totalUsageEncrypted s) (decryptionContexts s).

Definition set_totalContributionsEncrypted (v : gmap N N) (s : State) : State :=
  mkState (owner s) (isProvider s) (paused s) (cooldownSeconds s) (lastSubmissionTime s)
    (lastDecryptionRequestTime s) (currentBatchId s) (isBatchOpen s)
    v (totalUsageEncrypted s) (decryptionContexts s).

Definition set_totalUsageEncrypted (v : gmap N N) (s : State) : State :=
  mkState (owner s) (isProvider s) (paused s) (cooldownSeconds s) (lastSubmissionTime s)
    (lastDecryptionRequestTime s) (currentBatchId s) (isBatchOpen s)
    (totalContributionsEncrypted s) v (decryptionContexts s).

Definition set_decryptionContexts (v : gmap N DecryptionContext) (s : State) : State :=
  mkState (owner s) (isProvider s) (paused s) (cooldownSeconds s) (lastSubmissionTime s)
    (lastDecryptionRequestTime s) (currentBatchId s) (isBatchOpen s)
    (totalContributionsEncrypted s) (totalUsageEncrypted s) v.

(** ** The transaction monad: storage, an event log, and revert *)

Definition M (A : Type) : Type := State -> Result (A * State * list Event).

#[export] Instance M_ret : MRet M := fun A a s => Ok (a, s, []).

#[export] Instance M_bind : MBind M := fun A B f m s =>
  match m s with
  | Revert e => Revert e
  | Ok (a, s1, l1) =>
      match f a s1 with
      | Revert e => Revert e
      | Ok (b, s2, l2) => Ok (b, s2, l1 ++ l2)
      end
  end.

Definition revert {A : Type} (e : Error) : M A := fun _ => Revert e.
Definition gets {A : Type} (f : State -> A) : M A := fun s => Ok (f s, s, []).
Definition modify (f : State -> State) : M unit := fun s => Ok (tt, f s, []).
Definition emit (ev : Event) : M unit := fun s => Ok (tt, s, [ev]).

(** [if (c) revert E();] *)
Definition revert_if (c : bool) (e : Error) : M unit :=
  if c then revert e else mret tt.

(** Checked [a + b] on [uint256]. *)
Definition checked_add (a b : uint256) : M uint256 :=
  if a + b <=? MAX_UINT256 then mret (a + b) else revert ArithmeticPanic.

(** [buf[lo:hi]]: reverts when the range leaves the buffer. *)
Definition sub_bytes (buf : bytes) (lo hi : nat) : bytes :=
  firstn (hi - lo) (skipn lo buf).
Arguments sub_bytes : simpl never.

Definition slice (buf : bytes) (lo hi : nat) : M bytes :=
  if ((lo <=? hi)%nat && (hi <=? length buf)%nat)%bool
  then mret (sub_bytes buf lo hi)
  else revert SliceOutOfBounds.

(** [abi.decode(word, uint256)]: a big-endian word. *)
Definition abi_decode_uint256 (word : bytes) : uint256 :=
  fold_left (fun acc b => acc * 256 + Byte.to_N b) word 0.

(** ** Transaction environment and external capabilities *)

(** What a call sees of the transaction: [msg.sender], [block.timestamp], and
    the request id that [FHE.requestDecryption] hands back when it is invoked
    in this transaction (chosen by the library, outside the contract). *)
Record Env : Type := mkEnv {
  msg_sender : address;
  block_timestamp : uint256;
  oracle_requestId : uint256
}.

(** The FHE library, [keccak256(abi.encode(..))] and [address(this)]: consumed
    through this interface, never implemented by the contract. *)
Class FHEVM : Type := {
  this_address : address;
  FHE_asEuint32 : uint256 -> euint32;
  FHE_add : euint32 -> euint32 -> euint32;
  FHE_isInitialized : euint32 -> bool;
  FHE_toBytes32 : euint32 -> bytes32;
  FHE_checkSignatures : uint256 -> bytes -> bytes -> bool;
  keccak256_abi_encode : list bytes32 -> address -> bytes32
}.

Section Contract.
Context `{FHEVM}.

(** *** Modifiers *)

Definition onlyOwner (e : Env) : M unit :=
  o ← gets owner;
  revert_if (negb (msg_sender e =? o)) NotOwner.

Definition onlyProvider (e : Env) : M unit :=
  p ← gets (fun s => mget false (isProvider s) (msg_sender e));
  revert_if (negb p) NotProvider.

Definition whenNotPaused : M unit :=
  p ← gets paused;
  revert_if p PausedError.

(** *** Internal helpers *)

Definition _hashCiphertexts (cts : list bytes32) : bytes32 :=
  keccak256_abi_encode cts this_address.

(** [_initIfNeeded(euint32 storage x)], instantiated at the two slots it is
    called on; the [storage] qualifier is read as written: the assignment
    reaches the stored accumulator. *)
Definition _initIfNeeded_contributions (b : uint256) : M unit :=
  x ← gets (fun s => mget 0 (totalContributionsEncrypted s) b);
  if FHE_isInitialized x then mret tt
  else modify (fun s =>
         set_totalContributionsEncrypted
           (<[b := FHE_asEuint32 0]> (totalContributionsEncrypted s)) s).

Definition _initIfNeeded_usage (b : uint256) : M unit :=
  x ← gets (fun s => mget 0 (totalUsageEncrypted s) b);
  if FHE_isInitialized x then mret tt
  else modify (fun s =>
         set_totalUsageEncrypted
           (<[b := FHE_asEuint32 0]> (totalUsageEncrypted s)) s).

(** *** Constructor and entry points *)

Definition constructor (deployer : address) : State * list Event :=
  ({| owner := deployer;
      isProvider := <[deployer := true]> ∅;
      paused := false;
      cooldownSeconds := 60;
      lastSubmissionTime := ∅;
      lastDecryptionRequestTime := ∅;
      currentBatchId := 1;
      isBatchOpen := ∅;
      totalContributionsEncrypted := ∅;
      totalUsageEncrypted := ∅;
      decryptionContexts := ∅ |},
   [ProviderAdded deployer]).

Definition transferOwnership (e : Env) (newOwner : address) : M unit :=
  onlyOwner e ;;
  oldOwner ← gets owner;
  modify (set_owner newOwner) ;;
  emit (OwnershipTransferred oldOwner newOwner).

Definition addProvider (e : Env) (provider : address) : M unit :=
  onlyOwner e ;;
  p ← gets (fun s => mget false (isProvider s) provider);
  if negb p then
    modify (fun s => set_isProvider (<[provider := true]> (isProvider s)) s) ;;
    emit (ProviderAdded provider)
  else mret tt.

Definition removeProvider (e : Env) (provider : address) : M unit :=
  onlyOwner e ;;
  p ← gets (fun s => mget false (isProvider s) provider);
  if (p : bool) then
    modify (fun s => set_isProvider (<[provider := false]> (isProvider s)) s) ;;
    emit (ProviderRemoved provider)
  else mret tt.

Definition pause (e : Env) : M unit :=
  onlyOwner e ;;
  whenNotPaused ;;
  modify (set_paused true) ;;
  emit (Paused (msg_sender e)).

Definition unpause (e : Env) : M unit :=
  onlyOwner e ;;
  p ← gets paused;
  revert_if (negb p) PausedError ;;
  modify (set_paused false) ;;
  emit (Unpaused (msg_sender e)).

Definition setCooldownSeconds (e : Env) (newCooldownSeconds : uint256) : M unit :=
  onlyOwner e ;;
  oldCooldownSeconds ← gets cooldownSeconds;
  modify (set_cooldownSeconds newCooldownSeconds) ;;
  emit (CooldownSecondsUpdated oldCooldownSeconds newCooldownSeconds).

Definition openBatch (e : Env) : M unit :=
  onlyOwner e ;;
  whenNotPaused ;;
  cur ← gets currentBatchId;
  next ← checked_add cur 1;
  modify (set_currentBatchId next) ;;
  id ← gets currentBatchId;
  modify (fun s => set_isBatchOpen (<[id := true]> (isBatchOpen s)) s) ;;
  modify (fun s =>
    set_totalContributionsEncrypted
      (<[id := FHE_asEuint32 0]> (totalContributionsEncrypted s)) s) ;;
  modify (fun s =>
    set_totalUsageEncrypted (<[id := FHE_asEuint32 0]> (totalUsageEncrypted s)) s) ;;
  emit (BatchOpened id).

Definition closeBatch (e : Env) (b : uint256) : M unit :=
  onlyOwner e ;;
  whenNotPaused ;;
  open ← gets (fun s => mget false (isBatchOpen s) b);
  revert_if (negb open) BatchNotOpen ;;
  modify (fun s => set_isBatchOpen (<[b := false]> (isBatchOpen s)) s) ;;
  emit (BatchClosed b).

Definition submitContribution (e : Env) (b : uint256) (encryptedAmount : euint32) : M unit :=
  whenNotPaused ;;
  last ← gets (fun s => mget 0 (lastSubmissionTime s) (msg_sender e));
  cd ← gets cooldownSeconds;
  deadline ← checked_add last cd;
  revert_if (block_timestamp e <? deadline) CooldownActive ;;
  open ← gets (fun s => mget false (isBatchOpen s) b);
  revert_if (negb open) BatchNotOpen ;;
  _initIfNeeded_contributions b ;;
  acc ← gets (fun s => mget 0 (totalContributionsEncrypted s) b);
  modify (fun s =>
    set_totalContributionsEncrypted
      (<[b := FHE_add acc encryptedAmount]> (totalContributionsEncrypted s)) s) ;;
  modify (fun s =>
    set_lastSubmissionTime
      (<[msg_sender e := block_timestamp e]> (lastSubmissionTime s)) s) ;;
  emit (ContributionSubmitted (msg_sender e) b (FHE_toBytes32 encryptedAmount)).

Definition reportUsage (e : Env) (b : uint256) (encryptedUsage : euint32) : M unit :=
  onlyProvider e ;;
  whenNotPaused ;;
  last ← gets (fun s => mget 0 (lastSubmissionTime s) (msg_sender e));
  cd ← gets cooldownSeconds;
  deadline ← checked_add last cd;
  revert_if (block_timestamp e <? deadline) CooldownActive ;;
  open ← gets (fun s => mget false (isBatchOpen s) b);
  revert_if (negb open) BatchNotOpen ;;
  _initIfNeeded_usage b ;;
  acc ← gets (fun s => mget 0 (totalUsageEncrypted s) b);
  modify (fun s =>
    set_totalUsageEncrypted
      (<[b := FHE_add acc encryptedUsage]> (totalUsageEncrypted s)) s) ;;
  modify (fun s =>
    set_lastSubmissionTime
      (<[msg_sender e := block_timestamp e]> (lastSubmissionTime s)) s) ;;
  emit (UsageReported (msg_sender e) b (FHE_toBytes32 encryptedUsage)).

Definition requestBatchSummaryDecryption (e : Env) (b : uint256) : M unit :=
  whenNotPaused ;;
  last ← gets (fun s => mget 0 (lastDecryptionRequestTime s) (msg_sender e));
  cd ← gets cooldownSeconds;
  deadline ← checked_add last cd;
  revert_if (block_timestamp e <? deadline) CooldownActive ;;
  open ← gets (fun s => mget false (isBatchOpen s) b);
  revert_if open BatchNotOpen ;;
  contributions ← gets (fun s => mget 0 (totalContributionsEncrypted s) b);
  usage ← gets (fun s => mget 0 (totalUsageEncrypted s) b);
  revert_if (negb (FHE_isInitialized contributions) || negb (FHE_isInitialized usage))
    InvalidBatchId ;;
  let cts := [FHE_toBytes32 contributions; FHE_toBytes32 usage] in
  let h := _hashCiphertexts cts in
  let requestId := oracle_requestId e in
  modify (fun s =>
    set_decryptionContexts
      (<[requestId := {| batchId := b; stateHash := h; processed := false |}]>
         (decryptionContexts s)) s) ;;
  modify (fun s =>
    set_lastDecryptionRequestTime
      (<[msg_sender e := block_timestamp e]> (lastDecryptionRequestTime s)) s) ;;
  emit (DecryptionRequested requestId b).

Definition myCallback (e : Env) (requestId : uint256) (cleartexts proof : bytes) : M unit :=
  ctx ← gets (fun s => mget noContext (decryptionContexts s) requestId);
  revert_if (processed ctx) ReplayDetected ;;
  let b := batchId ctx in
  contributions ← gets (fun s => mget 0 (totalContributionsEncrypted s) b);
  usage ← gets (fun s => mget 0 (totalUsageEncrypted s) b);
  let cts := [FHE_toBytes32 contributions; FHE_toBytes32 usage] in
  let currentHash := _hashCiphertexts cts in
  stored ← gets (fun s => stateHash (mget noContext (decryptionContexts s) requestId));
  revert_if (negb (currentHash =? stored)) StateMismatch ;;
  revert_if (negb (FHE_checkSignatures requestId cleartexts proof)) InvalidProof ;;
  w0 ← slice cleartexts 0 32;
  let totalContributions := abi_decode_uint256 w0 in
  w1 ← slice cleartexts 32 64;
  let totalUsage := abi_decode_uint256 w1 in
  modify (fun s =>
    let c := mget noContext (decryptionContexts s) requestId in
    set_decryptionContexts
      (<[requestId := {| batchId := batchId c; stateHash := stateHash c; processed := true |}]>
         (decryptionContexts s)) s) ;;
  emit (DecryptionCompleted requestId b totalContributions totalUsage).

End Contract.

(** ** Calls, transactions, traces *)

Inductive Call : Type :=
| TransferOwnership (newOwner : address)
| AddProvider (provider : address)
| RemoveProvider (provider : address)
| Pause
| Unpause
| SetCooldownSeconds (newCooldownSeconds : uint256)
| OpenBatch
| CloseBatch (b : uint256)
| SubmitContribution (b : uint256) (encryptedAmount : euint32)
| ReportUsage (b : uint256) (encryptedUsage : euint32)
| RequestBatchSummaryDecryption (b : uint256)
| MyCallback (requestId : uint256) (cleartexts proof : bytes).

Section Execution.
Context `{FHEVM}.

Definition call (e : Env) (c : Call) : M unit :=
  match c with
  | TransferOwnership newOwner => transferOwnership e newOwner
  | AddProvider p => addProvider e p
  | RemoveProvider p => removeProvider e p
  | Pause => pause e
  | Unpause => unpause e
  | SetCooldownSeconds n => setCooldownSeconds e n
  | OpenBatch => openBatch e
  | CloseBatch b => closeBatch e b
  | SubmitContribution b a => submitContribution e b a
  | ReportUsage b u => reportUsage e b u
  | RequestBatchSummaryDecryption b => requestBatchSummaryDecryption e b
  | MyCallback r c p => myCallback e r c p
  end.

(** A transaction either applies in full or reverts and leaves storage and
    the log as they were. *)
Definition transact (e : Env) (c : Call) (s : State) : State * list Event :=
  match call e c s with
  | Ok (_, s', evs) => (s', evs)
  | Revert _ => (s, [])
  end.

Fixpoint run (txs : list (Env * Call)) (s : State) : State * list Event :=
  match txs with
  | [] => (s, [])
  | (e, c) :: rest =>
      let '(s1, l1) := transact e c s in
      let '(s2, l2) := run rest s1 in
      (s2, l1 ++ l2)
  end.

(** States the deployed contract can be in. *)
Inductive reachable : State -> Prop :=
| reachable_deploy (deployer : address) :
    reachable (fst (constructor deployer))
| reachable_call (s s' : State) (e : Env) (c : Call) (evs : list Event) :
    reachable s -> call e c s = Ok (tt, s', evs) -> reachable s'.

End Execution.

(** ** A test double for the external capabilities

    Handles are numbers; trivial encryption of [v] is [2 * v + 1] (never the
    uninitialised handle 0), [add] pairs its operands into a fresh even
    handle, the hash pairs the two handles and is never 0,
    and the verifier accepts exactly the proofs of length one. *)

Definition pairN (a b : N) : N := (a + b) * (a + b) + b.

Definition mock_hash (cts : list N) (this : N) : N :=
  match cts with
  | [c; u] => pairN c u + 1
  | _ => 0
  end.

Definition mockFHE : FHEVM := {|
  this_address := 4096;
  FHE_asEuint32 := fun v => 2 * v + 1;
  FHE_add := fun a b => 2 * (pairN a b + 1);
  FHE_isInitialized := fun h => negb (h =? 0);
  FHE_toBytes32 := fun h => h;
  FHE_checkSignatures := fun _ _ pf => (length pf =? 1)%nat;
  keccak256_abi_encode := mock_hash
|}.

(** A 32-byte big-endian word holding a value below 256. *)
Definition word (n : N) : list Byte.byte :=
  repeat Byte.x00 31 ++ [default Byte.x00 (Byte.of_N n)].

Definition env (sender now : N) : Env := mkEnv sender now 0.
Definition env_rid (sender now rid : N) : Env := mkEnv sender now rid.

(** The cast: 7 deploys and owns the contract, 8 contributes and requests
    summaries, 9 and 10 are accounts with no role at all. *)
Definition deployed : State := fst (constructor 7).

Definition payload : list Byte.byte := word 100 ++ word 0.
Definition accepted_proof : list Byte.byte := [Byte.x01].

(** Batch 2 opened, one contribution merged, batch closed, summary requested
    under request id 1. *)
Definition round_trip : list (Env * Call) :=
  [ (env 7 100, OpenBatch);
    (env 8 100, SubmitContribution 2 201);
    (env 7 100, CloseBatch 2);
    (env_rid 8 100 1, RequestBatchSummaryDecryption 2) ].

Definition awaiting_callback : State := fst (@run mockFHE round_trip deployed).

Definition awaiting_callback_paused : State :=
  fst (@run mockFHE (round_trip ++ [(env 7 100, Pause)]) deployed).

(** Batch 2 open, nobody has submitted or requested anything. *)
Definition one_open_batch : State := fst (@run mockFHE [(env 7 100, OpenBatch)] deployed).

Definition one_open_batch_paused : State :=
  fst (@run mockFHE [(env 7 100, OpenBatch); (env 7 100, Pause)] deployed).

(** Batch 2 open, account 8 has contributed at time 100. *)
Definition after_first_contribution : State :=
  fst (@run mockFHE
         [(env 7 100, OpenBatch); (env 8 100, SubmitContribution 2 201)] deployed).

(** Batch 2 closed and requested by 8 at time 100, batch 3 open. *)
Definition requested_and_open : State :=
  fst (@run mockFHE
         [ (env 7 100, OpenBatch); (env 7 100, CloseBatch 2); (env 7 100, OpenBatch);
           (env_rid 8 100 1, RequestBatchSummaryDecryption 2) ] deployed).



(** Openings by the owner across two pause/unpause cycles, with one attempt
    made while paused and one made by a stranger. *)
Definition openings_across_pauses : list (Env * Call) :=
  [ (env 7 100, OpenBatch); (env 7 110, Pause); (env 7 120, OpenBatch);
    (env 7 130, Unpause); (env 9 140, OpenBatch); (env 7 150, OpenBatch);
    (env 7 160, Pause); (env 7 170, Unpause) ].

(** ** Symbolic execution of entry points

    Each entry point is rewritten once into the decision list it executes:
    the guards in source order, then the storage written and the event
    emitted. Later proofs rewrite with these equations. *)

Ltac tx_unfold :=
  cbv [onlyOwner onlyProvider whenNotPaused _hashCiphertexts
       _initIfNeeded_contributions _initIfNeeded_usage
       transferOwnership addProvider removeProvider pause unpause
       setCooldownSeconds openBatch closeBatch submitContribution reportUsage
       requestBatchSummaryDecryption myCallback
       mbind M_bind mret M_ret gets modify emit revert_if revert checked_add slice].

Ltac tx_cases :=
  repeat (simpl; try reflexivity;
          match goal with
          | |- context [if ?c then _ else _] => destruct c eqn:?
          end).

Section Equations.
Context `{FHEVM}.

(** The accumulator a merge reads after [_initIfNeeded]. *)
Definition initialised (x : euint32) : euint32 :=
  if FHE_isInitialized x then x else FHE_asEuint32 0.

Definition isOwner (e : Env) (s : State) : bool := msg_sender e =? owner s.
Definition batchOpen (s : State) (b : uint256) : bool := mget false (isBatchOpen s) b.
Definition contributionsOf (s : State) (b : uint256) : euint32 :=
  mget 0 (totalContributionsEncrypted s) b.
Definition usageOf (s : State) (b : uint256) : euint32 :=
  mget 0 (totalUsageEncrypted s) b.
Definition contextOf (s : State) (requestId : uint256) : DecryptionContext :=
  mget noContext (decryptionContexts s) requestId.
Definition lastSubmission (s : State) (a : address) : uint256 :=
  mget 0 (lastSubmissionTime s) a.
Definition lastDecryptionRequest (s : State) (a : address) : uint256 :=
  mget 0 (lastDecryptionRequestTime s) a.
Definition provider (s : State) (a : address) : bool := mget false (isProvider s) a.

(** The hash both [requestBatchSummaryDecryption] and [myCallback] take of
    the two accumulator handles of batch [b]. *)
Definition accumulatorHash (s : State) (b : uint256) : bytes32 :=
  _hashCiphertexts [FHE_toBytes32 (contributionsOf s b); FHE_toBytes32 (usageOf s b)].

Lemma transferOwnership_eq e newOwner s :
  transferOwnership e newOwner s =
    if negb (isOwner e s) then Revert NotOwner
    else Ok (tt, set_owner newOwner s, [OwnershipTransferred (owner s) newOwner]).
Proof. unfold isOwner. tx_unfold. tx_cases. Qed.

Lemma addProvider_eq e p s :
  addProvider e p s =
    if negb (isOwner e s) then Revert NotOwner
    else if negb (provider s p)
         then Ok (tt, set_isProvider (<[p := true]> (isProvider s)) s, [ProviderAdded p])
         else Ok (tt, s, []).
Proof. unfold isOwner, provider. tx_unfold. tx_cases. Qed.

Lemma removeProvider_eq e p s :
  removeProvider e p s =
    if negb (isOwner e s) then Revert NotOwner
    else if provider s p
         then Ok (tt, set_isProvider (<[p := false]> (isProvider s)) s, [ProviderRemoved p])
         else Ok (tt, s, []).
Proof. unfold isOwner, provider. tx_unfold. tx_cases. Qed.

Lemma pause_eq e s :
  pause e s =
    if negb (isOwner e s) then Revert NotOwner
    else if paused s then Revert PausedError
    else Ok (tt, set_paused true s, [Paused (msg_sender e)]).
Proof. unfold isOwner. tx_unfold. tx_cases. Qed.

Lemma unpause_eq e s :
  unpause e s =
    if negb (isOwner e s) then Revert NotOwner
    else if negb (paused s) then Revert PausedError
    else Ok (tt, set_paused false s, [Unpaused (msg_sender e)]).
Proof. unfold isOwner. tx_unfold. tx_cases. Qed.

Lemma setCooldownSeconds_eq e n s :
  setCooldownSeconds e n s =
    if negb (isOwner e s) then Revert NotOwner
    else Ok (tt, set_cooldownSeconds n s, [CooldownSecondsUpdated (cooldownSeconds s) n]).
Proof. unfold isOwner. tx_unfold. tx_cases. Qed.

Definition openBatch_post (s : State) : State :=
  let id := currentBatchId s + 1 in
  set_totalUsageEncrypted (<[id := FHE_asEuint32 0]> (totalUsageEncrypted s))
    (set_totalContributionsEncrypted
       (<[id := FHE_asEuint32 0]> (totalContributionsEncrypted s))
       (set_isBatchOpen (<[id := true]> (isBatchOpen s))
          (set_currentBatchId id s))).

Lemma openBatch_eq e s :
  openBatch e s =
    if negb (isOwner e s) then Revert NotOwner
    else if paused s then Revert PausedError
    else if currentBatchId s + 1 <=? MAX_UINT256
         then Ok (tt, openBatch_post s, [BatchOpened (currentBatchId s + 1)])
         else Revert ArithmeticPanic.
Proof. unfold isOwner, openBatch_post. tx_unfold. tx_cases. Qed.

Lemma closeBatch_eq e b s :
  closeBatch e b s =
    if negb (isOwner e s) then Revert NotOwner
    else if paused s then Revert PausedError
    else if negb (batchOpen s b) then Revert BatchNotOpen
    else Ok (tt, set_isBatchOpen (<[b := false]> (isBatchOpen s)) s, [BatchClosed b]).
Proof. unfold isOwner, batchOpen. tx_unfold. tx_cases. Qed.

Definition submitContribution_post (e : Env) (b : uint256) (a : euint32) (s : State) : State :=
  set_lastSubmissionTime (<[msg_sender e := block_timestamp e]> (lastSubmissionTime s))
    (set_totalContributionsEncrypted
       (<[b := FHE_add (initialised (contributionsOf s b)) a]>
          (totalContributionsEncrypted s)) s).

Lemma submitContribution_eq e b a s :
  submitContribution e b a s =
    if paused s then Revert PausedError
    else if lastSubmission s (msg_sender e) + cooldownSeconds s <=? MAX_UINT256
    then if block_timestamp e <? lastSubmission s (msg_sender e) + cooldownSeconds s
         then Revert CooldownActive
         else if negb (batchOpen s b) then Revert BatchNotOpen
         else Ok (tt, submitContribution_post e b a s,
                  [ContributionSubmitted (msg_sender e) b (FHE_toBytes32 a)])
    else Revert ArithmeticPanic.
Proof.
  unfold batchOpen, lastSubmission, submitContribution_post, initialised, contributionsOf.
  tx_unfold. tx_cases.
  unfold set_totalContributionsEncrypted, set_lastSubmissionTime, mget; simpl.
  rewrite lookup_insert_eq, insert_insert_eq. reflexivity.
Qed.

Definition reportUsage_post (e : Env) (b : uint256) (u : euint32) (s : State) : State :=
  set_lastSubmissionTime (<[msg_sender e := block_timestamp e]> (lastSubmissionTime s))
    (set_totalUsageEncrypted
       (<[b := FHE_add (initialised (usageOf s b)) u]> (totalUsageEncrypted s)) s).

Lemma reportUsage_eq e b u s :
  reportUsage e b u s =
    if negb (provider s (msg_sender e)) then Revert NotProvider
    else if paused s then Revert PausedError
    else if lastSubmission s (msg_sender e) + cooldownSeconds s <=? MAX_UINT256
    then if block_timestamp e <? lastSubmission s (msg_sender e) + cooldownSeconds s
         then Revert CooldownActive
         else if negb (batchOpen s b) then Revert BatchNotOpen
         else Ok (tt, reportUsage_post e b u s,
                  [UsageReported (msg_sender e) b (FHE_toBytes32 u)])
    else Revert ArithmeticPanic.
Proof.
  unfold provider, batchOpen, lastSubmission, reportUsage_post, initialised, usageOf.
  tx_unfold. tx_cases.
  unfold set_totalUsageEncrypted, set_lastSubmissionTime, mget; simpl.
  rewrite lookup_insert_eq, insert_insert_eq. reflexivity.
Qed.

Definition request_post (e : Env) (b : uint256) (s : State) : State :=
  set_lastDecryptionRequestTime
    (<[msg_sender e := block_timestamp e]> (lastDecryptionRequestTime s))
    (set_decryptionContexts
       (<[oracle_requestId e :=
            {| batchId := b; stateHash := accumulatorHash s b; processed := false |}]>
          (decryptionContexts s)) s).

Lemma requestBatchSummaryDecryption_eq e b s :
  requestBatchSummaryDecryption e b s =
    if paused s then Revert PausedError
    else if lastDecryptionRequest s (msg_sender e) + cooldownSeconds s <=? MAX_UINT256
    then if block_timestamp e <? lastDecryptionRequest s (msg_sender e) + cooldownSeconds s
         then Revert CooldownActive
         else if batchOpen s b then Revert BatchNotOpen
         else if negb (FHE_isInitialized (contributionsOf s b))
                 || negb (FHE_isInitialized (usageOf s b))
         then Revert InvalidBatchId
         else Ok (tt, request_post e b s, [DecryptionRequested (oracle_requestId e) b])
    else Revert ArithmeticPanic.
Proof.
  unfold batchOpen, lastDecryptionRequest, request_post, accumulatorHash,
    contributionsOf, usageOf.
  tx_unfold. tx_cases.
Qed.

Definition callback_post (requestId : uint256) (s : State) : State :=
  set_decryptionContexts
    (<[requestId := {| batchId := batchId (contextOf s requestId);
                       stateHash := stateHash (contextOf s requestId);
                       processed := true |}]> (decryptionContexts s)) s.

Lemma myCallback_eq e requestId cleartexts proof s :
  myCallback e requestId cleartexts proof s =
    let ctx := contextOf s requestId in
    if processed ctx then Revert ReplayDetected
    else if negb (accumulatorHash s (batchId ctx) =? stateHash ctx) then Revert StateMismatch
    else if negb (FHE_checkSignatures requestId cleartexts proof) then Revert InvalidProof
    else if (64 <=? length cleartexts)%nat
    then Ok (tt, callback_post requestId s,
             [DecryptionCompleted requestId (batchId ctx)
                (abi_decode_uint256 (sub_bytes cleartexts 0 32))
                (abi_decode_uint256 (sub_bytes cleartexts 32 64))])
    else Revert SliceOutOfBounds.
Proof.
  unfold contextOf, callback_post, accumulatorHash, contributionsOf, usageOf.
  tx_unfold. cbv zeta.
  destruct (processed _); [reflexivity |].
  destruct (_ =? _); [| reflexivity].
  destruct (FHE_checkSignatures _ _ _); [| reflexivity].
  cbn [negb].
  change (0 <=? 32)%nat with true. change (32 <=? 64)%nat with true.
  cbn [andb].
  destruct (Nat.leb_spec 64 (length cleartexts)) as [Hlen | Hlen].
  - assert (Nat.leb 32 (length cleartexts) = true) as -> by (apply Nat.leb_le; lia).
    reflexivity.
  - destruct (Nat.leb 32 (length cleartexts)); reflexivity.
Qed.

End Equations.

Create Rewrite HintDb tx_eqs.
#[global] Hint Rewrite @transferOwnership_eq @addProvider_eq @removeProvider_eq
  @pause_eq @unpause_eq @setCooldownSeconds_eq @openBatch_eq @closeBatch_eq
  @submitContribution_eq @reportUsage_eq @requestBatchSummaryDecryption_eq
  @myCallback_eq : tx_eqs.

(** Invert a successful call: one goal per entry point whose guards all pass,
    with the guards as hypotheses and the post-state substituted. *)
Ltac guards H :=
  repeat match type of H with
         | (if ?c then _ else _) = _ => destruct c eqn:?
         | (let _ := _ in _) = _ => cbv zeta in H
         end;
  try discriminate H.

(** Split a conjunction into its parts, and nothing else. *)
Ltac conjs := repeat match goal with |- _ /\ _ => split end.

(** The passed guard [if (!isBatchOpen[b]) revert ..] as a positive fact. *)
Ltac open_guard :=
  match goal with
  | Hg : negb (batchOpen _ _) = false |- _ => apply negb_false_iff in Hg
  end.

Ltac call_inv H :=
  match type of H with
  | call _ ?c _ = _ =>
      destruct c; cbn [call] in H; autorewrite with tx_eqs in H;
      guards H; inversion H; subst; clear H
  end.

Section Traces.
Context `{FHEVM}.

Lemma transact_cases e c s :
  (exists s' evs, call e c s = Ok (tt, s', evs) /\ transact e c s = (s', evs))
  \/ (exists err, call e c s = Revert err /\ transact e c s = (s, [])).
Proof.
  unfold transact. destruct (call e c s) as [[[[] s'] evs] | err]; eauto.
Qed.

(** A property kept by every successful call is kept along a trace. *)
Lemma run_invariant (Inv : State -> Prop) :
  (forall e c s s' evs, Inv s -> call e c s = Ok (tt, s', evs) -> Inv s') ->
  forall txs s, Inv s -> Inv (fst (run txs s)).
Proof.
  intros Hstep txs. induction txs as [| [e c] rest IH]; intros s Hs; [exact Hs |].
  cbn [run].
  destruct (transact_cases e c s) as [(s' & evs & Hc & ->) | (err & Hc & ->)].
  - specialize (IH s' (Hstep _ _ _ _ _ Hs Hc)).
    destruct (run rest s'); exact IH.
  - specialize (IH s Hs). destruct (run rest s); exact IH.
Qed.

Lemma reachable_run txs s : reachable s -> reachable (fst (run txs s)).
Proof.
  apply run_invariant. intros e c s0 s' evs Hs Hc. eapply reachable_call; eauto.
Qed.

(** *** A closed batch stays closed *)

(** Batch [b] has been allocated and is not open. *)
Definition retired (b : uint256) (s : State) : Prop :=
  b <= currentBatchId s /\ batchOpen s b = false.

(** Every open batch was allocated by [openBatch]. *)
Definition open_allocated (s : State) : Prop :=
  forall b, batchOpen s b = true -> b <= currentBatchId s.

Lemma call_open_allocated e c s s' evs :
  open_allocated s -> call e c s = Ok (tt, s', evs) -> open_allocated s'.
Proof.
  unfold open_allocated, batchOpen, mget.
  intros Hinv Hc b. call_inv Hc; cbn; try apply Hinv.
  - (* openBatch *)
    destruct (decide (currentBatchId s + 1 = b)) as [-> | Hne].
    + intros _. lia.
    + rewrite lookup_insert_ne by exact Hne. intros Hb. apply Hinv in Hb. lia.
  - (* closeBatch *)
    destruct (decide (b0 = b)) as [-> | Hne].
    + rewrite lookup_insert_eq. discriminate.
    + rewrite lookup_insert_ne by exact Hne. apply Hinv.
Qed.

Lemma reachable_open_allocated s : reachable s -> open_allocated s.
Proof.
  induction 1 as [d | s s' e c evs _ IH Hc].
  - intros b. unfold batchOpen, mget. cbn. rewrite lookup_empty. discriminate.
  - eapply call_open_allocated; eauto.
Qed.

(** One successful call on a state where [b] is retired: [b] stays retired
    and neither of its accumulators is written. *)
Lemma call_retired b e c s s' evs :
  retired b s -> call e c s = Ok (tt, s', evs) ->
  retired b s'
  /\ totalContributionsEncrypted s' !! b = totalContributionsEncrypted s !! b
  /\ totalUsageEncrypted s' !! b = totalUsageEncrypted s !! b.
Proof.
  unfold retired, batchOpen, mget.
  intros [Hle Hclosed] Hc. call_inv Hc; cbn; try (split; [split |]; auto; fail).
  - (* openBatch *)
    assert (currentBatchId s + 1 <> b) as Hne by lia.
    rewrite !lookup_insert_ne by exact Hne. repeat split; auto. lia.
  - (* closeBatch *)
    repeat split; auto.
    destruct (decide (b0 = b)) as [-> | Hne].
    + rewrite lookup_insert_eq. reflexivity.
    + rewrite lookup_insert_ne by exact Hne. exact Hclosed.
  - (* submitContribution *)
    repeat split; auto.
    destruct (decide (b0 = b)) as [-> | Hne].
    + unfold batchOpen, mget in *. rewrite Hclosed in *. discriminate.
    + rewrite lookup_insert_ne by exact Hne. reflexivity.
  - (* reportUsage *)
    repeat split; auto.
    destruct (decide (b0 = b)) as [-> | Hne].
    + unfold batchOpen, mget in *. rewrite Hclosed in *. discriminate.
    + rewrite lookup_insert_ne by exact Hne. reflexivity.
Qed.

Lemma run_retired b txs s :
  retired b s ->
  retired b (fst (run txs s))
  /\ contributionsOf (fst (run txs s)) b = contributionsOf s b
  /\ usageOf (fst (run txs s)) b = usageOf s b.
Proof.
  intros Hr.
  pose (Inv := fun s' =>
    retired b s'
    /\ totalContributionsEncrypted s' !! b = totalContributionsEncrypted s !! b
    /\ totalUsageEncrypted s' !! b = totalUsageEncrypted s !! b).
  assert (Inv (fst (run txs s))) as (Hr' & Hc & Hu).
  { apply run_invariant; [| repeat split; auto; apply Hr].
    intros e c s1 s2 evs (Hr1 & Hc1 & Hu1) Hcall.
    destruct (call_retired b e c s1 s2 evs Hr1 Hcall) as (Hr2 & Hc2 & Hu2).
    repeat split; try apply Hr2; congruence. }
  unfold contributionsOf, usageOf, mget. rewrite Hc, Hu. auto.
Qed.

Lemma closeBatch_retires e b s s' evs :
  open_allocated s -> closeBatch e b s = Ok (tt, s', evs) -> retired b s'.
Proof.
  intros Hinv Hc. rewrite closeBatch_eq in Hc. guards Hc. inversion Hc; subst.
  unfold retired, batchOpen, mget. cbn. rewrite lookup_insert_eq. split; [| reflexivity].
  apply Hinv. destruct (batchOpen s b); [reflexivity | discriminate].
Qed.

End Traces.

(** ** Batch ids *)

(** The ids announced by [BatchOpened] events, oldest first. *)
Definition openedIds (log : list Event) : list N :=
  omap (fun ev => match ev with BatchOpened b => Some b | _ => None end) log.

(** [a, a+1, ..., a+n-1] *)
Fixpoint idsFrom (a : N) (n : nat) : list N :=
  match n with
  | O => []
  | S k => a :: idsFrom (a + 1) k
  end.

Lemma idsFrom_lower a n x : In x (idsFrom a n) -> a <= x.
Proof.
  revert a. induction n as [| n IH]; intros a; cbn; [tauto |].
  intros [<- | Hin]; [lia |]. apply IH in Hin. lia.
Qed.

Lemma idsFrom_sorted a n : StronglySorted N.lt (idsFrom a n).
Proof.
  revert a. induction n as [| n IH]; intros a; cbn; constructor; [apply IH |].
  apply Forall_forall. intros x Hin. apply list_elem_of_In, idsFrom_lower in Hin. lia.
Qed.

Lemma idsFrom_NoDup a n : NoDup (idsFrom a n).
Proof.
  revert a. induction n as [| n IH]; intros a; cbn; constructor; [| apply IH].
  intros Hin. apply list_elem_of_In, idsFrom_lower in Hin. lia.
Qed.

Section BatchIds.
Context `{FHEVM}.

(** A successful call allocates no id, or exactly the next one. *)
Lemma call_allocates e c s s' evs :
  call e c s = Ok (tt, s', evs) ->
  (openedIds evs = [] /\ currentBatchId s' = currentBatchId s)
  \/ (openedIds evs = [currentBatchId s + 1] /\ currentBatchId s' = currentBatchId s + 1).
Proof.
  intros Hc. call_inv Hc; cbn; auto.
Qed.

Lemma run_allocates txs s :
  let ids := openedIds (snd (run txs s)) in
  ids = idsFrom (currentBatchId s + 1) (length ids)
  /\ currentBatchId (fst (run txs s)) = currentBatchId s + N.of_nat (length ids).
Proof.
  revert s. induction txs as [| [e c] rest IH]; intros s; cbn [run].
  - cbn. split; [reflexivity | lia].
  - destruct (transact_cases e c s) as [(s' & evs & Hc & ->) | (err & Hc & ->)].
    + specialize (IH s'). destruct (run rest s') as [s2 l2]. cbn [fst snd] in *.
      unfold openedIds in *. rewrite omap_app, length_app.
      destruct IH as [IHids IHcur].
      destruct (call_allocates _ _ _ _ _ Hc) as [[Hev Hcur] | [Hev Hcur]];
        unfold openedIds in Hev; rewrite Hev; cbn [app length Nat.add idsFrom].
      * rewrite Hcur in *. auto.
      * rewrite Hcur in *. split; [f_equal; exact IHids | lia].
    + specialize (IH s). destruct (run rest s) as [s2 l2]. cbn [fst snd app] in *.
      exact IH.
Qed.

(** The number of [openBatch] transactions of a trace that went through. *)
Fixpoint openings (txs : list (Env * Call)) (s : State) : nat :=
  match txs with
  | [] => O
  | (e, c) :: rest =>
      match call e c s with
      | Ok (_, s', _) =>
          match c with
          | OpenBatch => S (openings rest s')
          | _ => openings rest s'
          end
      | Revert _ => openings rest s
      end
  end.

(** Exactly the successful [openBatch] calls announce an id, one each. *)
Lemma call_announces e c s s' evs :
  call e c s = Ok (tt, s', evs) ->
  length (openedIds evs) = match c with OpenBatch => 1%nat | _ => O end.
Proof.
  intros Hc. call_inv Hc; reflexivity.
Qed.

Lemma run_openings txs s :
  length (openedIds (snd (run txs s))) = openings txs s.
Proof.
  revert s. induction txs as [| [e c] rest IH]; intros s; [reflexivity |].
  cbn [run openings]. unfold transact.
  destruct (call e c s) as [[[[] s'] evs] | err] eqn:Hc.
  - specialize (IH s'). destruct (run rest s') as [s2 l2]. cbn [snd] in *.
    unfold openedIds in *. rewrite omap_app, length_app, IH.
    pose proof (call_announces _ _ _ _ _ Hc) as Hlen. unfold openedIds in Hlen.
    rewrite Hlen. destruct c; reflexivity.
  - specialize (IH s). destruct (run rest s) as [s2 l2]. exact IH.
Qed.

Lemma idsFrom_upper a n x : In x (idsFrom a n) -> x < a + N.of_nat n.
Proof.
  revert a. induction n as [| n IH]; intros a; cbn [idsFrom In]; [tauto |].
  intros [<- | Hin]; [lia |]. apply IH in Hin. lia.
Qed.

End BatchIds.

(** ** Decryption contexts along a trace *)

(** The transaction registers a context under [rid]: it is a summary request
    to which the oracle hands the id [rid]. *)
Definition registers (rid : uint256) (tx : Env * Call) : bool :=
  match tx with
  | (e, RequestBatchSummaryDecryption _) => oracle_requestId e =? rid
  | _ => false
  end.

(** The transaction is a callback delivery for [rid]. *)
Definition delivers (rid : uint256) (tx : Env * Call) : bool :=
  match tx with
  | (_, MyCallback r _ _) => r =? rid
  | _ => false
  end.

Section Contexts.
Context `{FHEVM}.

(** The two handles a summary request of batch [b] covers. *)
Definition handlesOf (s : State) (b : uint256) : bytes32 * bytes32 :=
  (FHE_toBytes32 (contributionsOf s b), FHE_toBytes32 (usageOf s b)).

Lemma call_keeps_context rid e c s s' evs :
  registers rid (e, c) = false -> delivers rid (e, c) = false ->
  call e c s = Ok (tt, s', evs) ->
  decryptionContexts s' !! rid = decryptionContexts s !! rid.
Proof.
  intros Hreg Hdel Hc. call_inv Hc; cbn in *; auto.
  - apply N.eqb_neq in Hreg. rewrite lookup_insert_ne by exact Hreg. reflexivity.
  - apply N.eqb_neq in Hdel. unfold callback_post. cbn.
    rewrite lookup_insert_ne by exact Hdel. reflexivity.
Qed.


(** A processed context stays processed unless the id is registered anew. *)
Lemma call_keeps_processed rid e c s s' evs :
  registers rid (e, c) = false ->
  call e c s = Ok (tt, s', evs) ->
  processed (contextOf s rid) = true -> processed (contextOf s' rid) = true.
Proof.
  intros Hreg Hc. unfold contextOf, mget. call_inv Hc; cbn in *; auto.
  - apply N.eqb_neq in Hreg. rewrite lookup_insert_ne by exact Hreg. auto.
  - unfold callback_post. cbn. destruct (decide (requestId = rid)) as [-> | Hne].
    + rewrite lookup_insert_eq. reflexivity.
    + rewrite lookup_insert_ne by exact Hne. auto.
Qed.

Lemma run_keeps_processed rid txs s :
  Forall (fun tx => registers rid tx = false) txs ->
  processed (contextOf s rid) = true ->
  processed (contextOf (fst (run txs s)) rid) = true.
Proof.
  intros Hall. revert s. induction Hall as [| [e c] rest Hreg _ IH]; intros s Hp; [exact Hp |].
  cbn [run].
  destruct (transact_cases e c s) as [(s' & evs & Hc & ->) | (err & Hc & ->)].
  - specialize (IH s' (call_keeps_processed _ _ _ _ _ _ Hreg Hc Hp)).
    destruct (run rest s'). exact IH.
  - specialize (IH s Hp). destruct (run rest s). exact IH.
Qed.

(** What a successful summary request leaves behind. *)
Lemma request_registers e b s s' evs :
  requestBatchSummaryDecryption e b s = Ok (tt, s', evs) ->
  decryptionContexts s' !! oracle_requestId e
    = Some {| batchId := b; stateHash := accumulatorHash s b; processed := false |}
  /\ batchOpen s b = false
  /\ FHE_isInitialized (contributionsOf s b) = true
  /\ FHE_isInitialized (usageOf s b) = true
  /\ handlesOf s' b = handlesOf s b
  /\ isBatchOpen s' = isBatchOpen s
  /\ currentBatchId s' = currentBatchId s.
Proof.
  intros Hc. rewrite requestBatchSummaryDecryption_eq in Hc. guards Hc.
  inversion Hc; subst. cbn. rewrite lookup_insert_eq.
  match goal with
  | Hor : _ || _ = false |- _ => apply orb_false_elim in Hor as [Hc1 Hu1]
  end.
  apply negb_false_iff in Hc1, Hu1. auto 10.
Qed.

(** A merge replaces the handle of the accumulator it adds into by the
    handle [FHE.add] returns, and touches no other accumulator. *)
Lemma submitContribution_merges e b a s s' evs :
  submitContribution e b a s = Ok (tt, s', evs) ->
  batchOpen s b = true
  /\ contributionsOf s' b = FHE_add (initialised (contributionsOf s b)) a
  /\ usageOf s' b = usageOf s b.
Proof.
  intros Hc. rewrite submitContribution_eq in Hc. guards Hc. inversion Hc; subst.
  open_guard.
  unfold contributionsOf, usageOf, mget. cbn. rewrite lookup_insert_eq. auto.
Qed.

Lemma reportUsage_merges e b u s s' evs :
  reportUsage e b u s = Ok (tt, s', evs) ->
  batchOpen s b = true
  /\ usageOf s' b = FHE_add (initialised (usageOf s b)) u
  /\ contributionsOf s' b = contributionsOf s b.
Proof.
  intros Hc. rewrite reportUsage_eq in Hc. guards Hc. inversion Hc; subst.
  open_guard.
  unfold contributionsOf, usageOf, mget. cbn. rewrite lookup_insert_eq. auto.
Qed.

(** *** On reachable states a requested batch can no longer be merged into *)

(** No accumulator is stored beyond the batch counter. *)
Definition accumulators_allocated (s : State) : Prop :=
  forall b, currentBatchId s < b ->
    totalContributionsEncrypted s !! b = None /\ totalUsageEncrypted s !! b = None.

Lemma call_accumulators_allocated e c s s' evs :
  open_allocated s -> accumulators_allocated s ->
  call e c s = Ok (tt, s', evs) -> accumulators_allocated s'.
Proof.
  unfold accumulators_allocated.
  intros Hopen Hinv Hc b. call_inv Hc; cbn; try apply Hinv.
  - (* openBatch *)
    intros Hlt. rewrite !lookup_insert_ne by lia. apply Hinv. lia.
  - (* submitContribution *)
    intros Hlt. open_guard.
    match goal with Hb : batchOpen _ _ = true |- _ => apply Hopen in Hb end.
    rewrite lookup_insert_ne by lia. apply Hinv. exact Hlt.
  - (* reportUsage *)
    intros Hlt. open_guard.
    match goal with Hb : batchOpen _ _ = true |- _ => apply Hopen in Hb end.
    rewrite lookup_insert_ne by lia. apply Hinv. exact Hlt.
Qed.

Lemma reachable_accumulators_allocated s : reachable s -> accumulators_allocated s.
Proof.
  induction 1 as [d | s s' e c evs Hs IH Hc].
  - intros b _. cbn. rewrite !lookup_empty. auto.
  - eapply call_accumulators_allocated; eauto using reachable_open_allocated.
Qed.

(** With the library's [isInitialized] (the zero handle is uninitialised), a
    summary request only succeeds on a retired batch; by [run_retired] its
    accumulators are then never written again, so between a request and its
    callback no merge into the requested batch can take place. *)
Lemma requested_batch_retired e b s s' evs :
  FHE_isInitialized 0 = false ->
  reachable s ->
  requestBatchSummaryDecryption e b s = Ok (tt, s', evs) ->
  retired b s'.
Proof.
  intros Hzero Hreach Hreq.
  destruct (request_registers _ _ _ _ _ Hreq) as (_ & Hclosed & Hinit & _ & _ & Hopen & Hcur).
  unfold retired, batchOpen in *. rewrite Hopen, Hcur. split; [| exact Hclosed].
  destruct (N.le_gt_cases b (currentBatchId s)) as [Hle | Hgt]; [exact Hle | exfalso].
  destruct (reachable_accumulators_allocated s Hreach b Hgt) as [Hnone _].
  unfold contributionsOf, mget in Hinit. rewrite Hnone in Hinit. cbn in Hinit. congruence.
Qed.

End Contexts.

(** The entry points that carry the [whenNotPaused] modifier, [pause] apart. *)
Definition pausable (c : Call) : bool :=
  match c with
  | OpenBatch | CloseBatch _ | SubmitContribution _ _ | ReportUsage _ _
  | RequestBatchSummaryDecryption _ => true
  | _ => false
  end.

(** ** Theorems *)

Section Theorems.
Context `{FHEVM}.

(** C3. Once [closeBatch(b)] has succeeded on a reachable state, the batch
    stays closed along every continuation, whoever calls and whenever: both
    accumulators of [b] keep the handles they had at close, and every later
    [submitContribution(b, _)] and [reportUsage(b, _)] reverts and leaves the
    state as it was. *)
Theorem closed_batch_is_final (s s1 : State) (e : Env) (b : uint256) (evs : list Event) :
  reachable s ->
  closeBatch e b s = Ok (tt, s1, evs) ->
  forall txs : list (Env * Call),
    let s2 := fst (run txs s1) in
    batchOpen s2 b = false
    /\ contributionsOf s2 b = contributionsOf s1 b
    /\ usageOf s2 b = usageOf s1 b
    /\ (forall e' a,
          (exists err, submitContribution e' b a s2 = Revert err)
          /\ transact e' (SubmitContribution b a) s2 = (s2, []))
    /\ (forall e' u,
          (exists err, reportUsage e' b u s2 = Revert err)
          /\ transact e' (ReportUsage b u) s2 = (s2, [])).
Proof.
  intros Hreach Hclose txs s2.
  assert (retired b s1) as Hr
    by (eapply closeBatch_retires; eauto using reachable_open_allocated).
  destruct (run_retired b txs s1 Hr) as ([_ Hclosed] & Hc & Hu).
  fold s2 in Hclosed, Hc, Hu.
  repeat split; auto.
  - rewrite submitContribution_eq, Hclosed. cbn [negb].
    repeat match goal with |- context [if ?c then _ else _] => destruct c end; eauto.
  - unfold transact. cbn [call]. rewrite submitContribution_eq, Hclosed. cbn [negb].
    repeat match goal with |- context [if ?c then _ else _] => destruct c end; eauto.
  - rewrite reportUsage_eq, Hclosed. cbn [negb].
    repeat match goal with |- context [if ?c then _ else _] => destruct c end; eauto.
  - unfold transact. cbn [call]. rewrite reportUsage_eq, Hclosed. cbn [negb].
    repeat match goal with |- context [if ?c then _ else _] => destruct c end; eauto.
Qed.

(** C8. A successful [openBatch()] in any state increments the counter by one,
    opens the batch with the new counter as id, sets both its accumulators to
    the encryption of zero and announces that id. Along every trace from
    deployment, pause and unpause included, each [openBatch] transaction that
    goes through announces one id and nothing else does; the ids announced are
    exactly 2, 3, 4, ... in order: no repeat, no gap, and the counter is the
    last one. The id the next successful [openBatch] allocates was not open
    before, is larger than all ids allocated so far and follows the last one
    directly. The deployer's first [openBatch] on the fresh contract
    allocates id 2. *)
Theorem openBatch_ids_consecutive (deployer : address) (txs : list (Env * Call)) :
  let s0 := fst (constructor deployer) in
  let s := fst (run txs s0) in
  let ids := openedIds (snd (run txs s0)) in
  (forall e (s1 s1' : State) evs,
     openBatch e s1 = Ok (tt, s1', evs) ->
     let id := currentBatchId s1 + 1 in
     evs = [BatchOpened id]
     /\ currentBatchId s1' = id
     /\ batchOpen s1' id = true
     /\ contributionsOf s1' id = FHE_asEuint32 0
     /\ usageOf s1' id = FHE_asEuint32 0
     /\ (forall b, b <> id -> batchOpen s1' b = batchOpen s1 b))
  /\ ids = idsFrom 2 (length ids)
  /\ length ids = openings txs s0
  /\ StronglySorted N.lt ids
  /\ NoDup ids
  /\ currentBatchId s = 1 + N.of_nat (length ids)
  /\ (forall e s' evs,
        openBatch e s = Ok (tt, s', evs) ->
        let id := currentBatchId s + 1 in
        openedIds (snd (run txs s0) ++ evs) = ids ++ [id]
        /\ id = 2 + N.of_nat (length ids)
        /\ Forall (fun old => old < id) ids
        /\ batchOpen s id = false)
  /\ (forall now rid,
        openBatch (mkEnv deployer now rid) s0
        = Ok (tt, openBatch_post s0, [BatchOpened 2])).
Proof.
  intros s0 s ids.
  assert (forall e (s1 s1' : State) evs,
            openBatch e s1 = Ok (tt, s1', evs) ->
            evs = [BatchOpened (currentBatchId s1 + 1)]
            /\ currentBatchId s1' = currentBatchId s1 + 1
            /\ batchOpen s1' (currentBatchId s1 + 1) = true
            /\ contributionsOf s1' (currentBatchId s1 + 1) = FHE_asEuint32 0
            /\ usageOf s1' (currentBatchId s1 + 1) = FHE_asEuint32 0
            /\ (forall b, b <> currentBatchId s1 + 1 ->
                          batchOpen s1' b = batchOpen s1 b)) as Hstep.
  { intros e s1 s1' evs Hc. rewrite openBatch_eq in Hc. guards Hc.
    inversion Hc; subst s1' evs.
    unfold batchOpen, contributionsOf, usageOf, mget, openBatch_post. cbn.
    rewrite !lookup_insert_eq. conjs; auto.
    intros b Hb. rewrite lookup_insert_ne by congruence. reflexivity. }
  destruct (run_allocates txs s0) as [Hids Hcur]. fold ids in Hids, Hcur. fold s in Hcur.
  change (currentBatchId s0) with 1 in *. change (1 + 1) with 2 in Hids.
  assert (reachable s) as Hreach by (apply reachable_run; constructor).
  conjs.
  - exact Hstep.
  - exact Hids.
  - apply run_openings.
  - rewrite Hids. apply idsFrom_sorted.
  - rewrite Hids. apply idsFrom_NoDup.
  - exact Hcur.
  - intros e s' evs Hc. destruct (Hstep _ _ _ _ Hc) as (Hevs & _).
    cbv zeta. conjs.
    + unfold openedIds. rewrite omap_app. subst evs. reflexivity.
    + lia.
    + apply Forall_forall. intros old Hold. apply list_elem_of_In in Hold.
      fold ids in Hold. rewrite Hids in Hold. apply idsFrom_upper in Hold. lia.
    + destruct (batchOpen s (currentBatchId s + 1)) eqn:Hopen; [| reflexivity].
      apply (reachable_open_allocated s Hreach) in Hopen. lia.
  - intros now rid. rewrite openBatch_eq. unfold isOwner. cbn.
    rewrite N.eqb_refl. reflexivity.
Qed.

(** C10. A successful [transferOwnership(newOwner)] writes the owner field
    and nothing else: the provider mapping is the same map, so the previous
    owner keeps whatever provider flag they had and [newOwner] gains none.
    On the freshly deployed contract the deployer is still a provider
    afterwards and a different [newOwner] is not one. *)
Theorem transferOwnership_changes_only_owner
    (e : Env) (newOwner : address) (s s' : State) (evs : list Event) :
  transferOwnership e newOwner s = Ok (tt, s', evs) ->
  s' = set_owner newOwner s
  /\ owner s' = newOwner
  /\ msg_sender e = owner s
  /\ isProvider s' = isProvider s
  /\ provider s' (owner s) = provider s (owner s)
  /\ provider s' newOwner = provider s newOwner
  /\ evs = [OwnershipTransferred (owner s) newOwner]
  /\ (forall deployer, s = fst (constructor deployer) ->
        provider s' deployer = true
        /\ (newOwner <> deployer -> provider s' newOwner = false)).
Proof.
  intros Hc. rewrite transferOwnership_eq in Hc. unfold isOwner in Hc.
  destruct (msg_sender e =? owner s) eqn:Hown; [| discriminate].
  apply N.eqb_eq in Hown. cbn in Hc. inversion Hc; subst s' evs.
  repeat split; auto.
  - subst s. unfold provider, mget. cbn. rewrite lookup_insert_eq. reflexivity.
  - intros Hne. subst s. unfold provider, mget. cbn.
    rewrite lookup_insert_ne by congruence. rewrite lookup_empty. reflexivity.
Qed.

(** C2 (amended). The callback reverts with [ReplayDetected] exactly when the
    context stored under the request id is already processed. An id with no
    stored context reads as the zero context, which is not processed: the
    callback then never reports [ReplayDetected], and reverts with
    [StateMismatch] as long as the hash of the batch-0 handles is not the zero
    word. After one successful callback for an id, every further callback for
    it, whatever its caller and payload, reverts with [ReplayDetected] for as
    long as the oracle hands that id to no new request. *)
Theorem callback_replay_guard (s : State) (rid : uint256) :
  (processed (contextOf s rid) = true ->
   forall e cleartexts proof,
     myCallback e rid cleartexts proof s = Revert ReplayDetected)
  /\ (decryptionContexts s !! rid = None ->
      forall e cleartexts proof,
        myCallback e rid cleartexts proof s <> Revert ReplayDetected
        /\ (accumulatorHash s 0 <> 0 ->
            myCallback e rid cleartexts proof s = Revert StateMismatch))
  /\ (forall e cleartexts proof s' evs,
       myCallback e rid cleartexts proof s = Ok (tt, s', evs) ->
       processed (contextOf s rid) = false
       /\ processed (contextOf s' rid) = true
       /\ forall txs,
            Forall (fun tx => registers rid tx = false) txs ->
            forall e' cleartexts' proof',
              myCallback e' rid cleartexts' proof' (fst (run txs s'))
              = Revert ReplayDetected).
Proof.
  assert (forall s0, processed (contextOf s0 rid) = true ->
          forall e cleartexts proof,
            myCallback e rid cleartexts proof s0 = Revert ReplayDetected) as Hreplay.
  { intros s0 Hp e cleartexts proof. rewrite myCallback_eq. cbv zeta.
    rewrite Hp. reflexivity. }
  split; [apply Hreplay | split].
  - intros Hnone e cleartexts proof. rewrite myCallback_eq. cbv zeta.
    unfold contextOf, mget. rewrite Hnone. cbn [default noContext processed batchId stateHash].
    split.
    + repeat match goal with |- context [if ?c then _ else _] => destruct c end;
        discriminate.
    + intros Hne. apply N.eqb_neq in Hne. rewrite Hne. reflexivity.
  - intros e cleartexts proof s' evs Hok.
    rewrite myCallback_eq in Hok. cbv zeta in Hok.
    destruct (processed (contextOf s rid)) eqn:Hp; [discriminate |].
    guards Hok. inversion Hok; subst s' evs.
    assert (processed (contextOf (callback_post rid s) rid) = true) as Hp'.
    { unfold contextOf at 1, callback_post, mget. cbn. rewrite lookup_insert_eq.
      reflexivity. }
    repeat split; auto.
    intros txs Hall e' cleartexts' proof'.
    apply Hreplay, run_keeps_processed; assumption.
Qed.

(** C4 (amended). [myCallback] carries no modifier and never reads
    [msg.sender]: its result is the same for every caller and timestamp. It
    succeeds exactly when the context is unprocessed, the recomputed state hash
    equals the stored one, [FHE.checkSignatures] accepts the request id with
    the cleartexts and proof, and the buffer holds the two 32-byte words. *)
Theorem callback_ignores_caller
    (e e' : Env) (rid : uint256) (cleartexts proof : bytes) (s : State) :
  myCallback e rid cleartexts proof s = myCallback e' rid cleartexts proof s
  /\ ((exists s' evs, myCallback e rid cleartexts proof s = Ok (tt, s', evs))
      <-> processed (contextOf s rid) = false
          /\ accumulatorHash s (batchId (contextOf s rid)) = stateHash (contextOf s rid)
          /\ FHE_checkSignatures rid cleartexts proof = true
          /\ (64 <= length cleartexts)%nat).
Proof.
  split; [rewrite !myCallback_eq; reflexivity |].
  rewrite myCallback_eq. cbv zeta.
  destruct (processed (contextOf s rid)).
  { split; [intros (s' & evs & Hc); discriminate | intros (Hp & _); discriminate]. }
  destruct (N.eqb_spec (accumulatorHash s (batchId (contextOf s rid)))
              (stateHash (contextOf s rid))) as [Hh | Hh]; cbn [negb].
  2: { split; [intros (s' & evs & Hc); discriminate | intros (_ & Hq & _); contradiction]. }
  destruct (FHE_checkSignatures rid cleartexts proof); cbn [negb].
  2: { split; [intros (s' & evs & Hc); discriminate | intros (_ & _ & Hq & _); discriminate]. }
  destruct (Nat.leb_spec 64 (length cleartexts)) as [Hlen | Hlen].
  - split; [auto | eauto].
  - split; [intros (s' & evs & Hc); discriminate | intros (_ & _ & _ & Hq); lia].
Qed.

(** C5 (amended). On an open batch [requestBatchSummaryDecryption] never
    succeeds, whoever calls, and leaves the state as it was. The guards run in
    source order: [PausedError] while paused; otherwise [CooldownActive] for a
    caller whose decryption-request cooldown has not elapsed; only then the
    open-batch check, which reverts with the contract's [BatchNotOpen] error
    (the error the specification calls BatchStillOpen). *)
Theorem request_on_open_batch_reverts (e : Env) (b : uint256) (s : State) :
  batchOpen s b = true ->
  requestBatchSummaryDecryption e b s
  = Revert
      (if paused s then PausedError
       else if lastDecryptionRequest s (msg_sender e) + cooldownSeconds s <=? MAX_UINT256
       then if block_timestamp e
               <? lastDecryptionRequest s (msg_sender e) + cooldownSeconds s
            then CooldownActive
            else BatchNotOpen
       else ArithmeticPanic)
  /\ transact e (RequestBatchSummaryDecryption b) s = (s, []).
Proof.
  intros Hopen.
  assert (requestBatchSummaryDecryption e b s
          = Revert
              (if paused s then PausedError
               else if lastDecryptionRequest s (msg_sender e) + cooldownSeconds s
                       <=? MAX_UINT256
               then if block_timestamp e
                       <? lastDecryptionRequest s (msg_sender e) + cooldownSeconds s
                    then CooldownActive
                    else BatchNotOpen
               else ArithmeticPanic)) as Heq.
  { rewrite requestBatchSummaryDecryption_eq, Hopen.
    repeat match goal with |- context [if ?c then _ else _] => destruct c end;
      reflexivity. }
  split; [exact Heq |].
  unfold transact. cbn [call]. rewrite Heq. reflexivity.
Qed.

(** C6 (amended). While the contract is paused, [openBatch], [closeBatch],
    [submitContribution], [reportUsage] and [requestBatchSummaryDecryption]
    all revert and leave the state as it was. The role modifier runs before
    the pause modifier, so a caller who is not the owner gets [NotOwner] from
    [openBatch] and [closeBatch], and one who is not a provider gets
    [NotProvider] from [reportUsage]; everyone else gets [PausedError]. The
    oracle callback carries no pause modifier: it does on a paused contract
    exactly what it does on the same storage unpaused. *)
Theorem paused_blocks_batch_operations (s : State) (e : Env) :
  paused s = true ->
  openBatch e s = Revert (if isOwner e s then PausedError else NotOwner)
  /\ (forall b, closeBatch e b s = Revert (if isOwner e s then PausedError else NotOwner))
  /\ (forall b a, submitContribution e b a s = Revert PausedError)
  /\ (forall b u,
        reportUsage e b u s
        = Revert (if provider s (msg_sender e) then PausedError else NotProvider))
  /\ (forall b, requestBatchSummaryDecryption e b s = Revert PausedError)
  /\ (forall c, pausable c = true -> transact e c s = (s, []))
  /\ (forall rid cleartexts proof,
        myCallback e rid cleartexts proof s
        = match myCallback e rid cleartexts proof (set_paused false s) with
          | Ok (u, s', evs) => Ok (u, set_paused true s', evs)
          | Revert err => Revert err
          end).
Proof.
  intros Hp.
  assert (openBatch e s = Revert (if isOwner e s then PausedError else NotOwner)) as H1
    by (rewrite openBatch_eq, Hp; destruct (isOwner e s); reflexivity).
  assert (forall b, closeBatch e b s
                    = Revert (if isOwner e s then PausedError else NotOwner)) as H2
    by (intros b; rewrite closeBatch_eq, Hp; destruct (isOwner e s); reflexivity).
  assert (forall b a, submitContribution e b a s = Revert PausedError) as H3
    by (intros b a; rewrite submitContribution_eq, Hp; reflexivity).
  assert (forall b u, reportUsage e b u s
                      = Revert (if provider s (msg_sender e)
                                then PausedError else NotProvider)) as H4
    by (intros b u; rewrite reportUsage_eq, Hp;
        destruct (provider s (msg_sender e)); reflexivity).
  assert (forall b, requestBatchSummaryDecryption e b s = Revert PausedError) as H5
    by (intros b; rewrite requestBatchSummaryDecryption_eq, Hp; reflexivity).
  repeat split; auto.
  - intros c Hc. unfold transact.
    destruct c; try discriminate Hc; cbn [call];
      rewrite ?H1, ?H2, ?H3, ?H4, ?H5; reflexivity.
  - intros rid cleartexts proof. rewrite !myCallback_eq. cbv zeta.
    change (contextOf (set_paused false s) rid) with (contextOf s rid).
    change (accumulatorHash (set_paused false s) (batchId (contextOf s rid)))
      with (accumulatorHash s (batchId (contextOf s rid))).
    repeat match goal with |- context [if ?c then _ else _] => destruct c end;
      try reflexivity.
    destruct s; cbn in Hp; subst; reflexivity.
Qed.

(** C7 (amended). Where the cooldown deadline [lastSubmissionTime + cooldownSeconds]
    fits in a [uint256], [submitContribution(b, _)] runs its guards in source
    order: [PausedError] while paused, then [CooldownActive] when
    [now < lastSubmissionTime + cooldownSeconds], then [BatchNotOpen] when [b]
    is not open. It succeeds exactly when the contract is not paused, the
    cooldown has elapsed and [b] is open; a failing call has one of these
    three errors and writes nothing, neither the accumulator nor the caller's
    [lastSubmissionTime]. *)
Theorem submitContribution_outcome (e : Env) (b : uint256) (a : euint32) (s : State) :
  lastSubmission s (msg_sender e) + cooldownSeconds s <= MAX_UINT256 ->
  submitContribution e b a s
  = (if paused s then Revert PausedError
     else if block_timestamp e <? lastSubmission s (msg_sender e) + cooldownSeconds s
     then Revert CooldownActive
     else if negb (batchOpen s b) then Revert BatchNotOpen
     else Ok (tt, submitContribution_post e b a s,
              [ContributionSubmitted (msg_sender e) b (FHE_toBytes32 a)]))
  /\ ((exists s' evs, submitContribution e b a s = Ok (tt, s', evs))
      <-> paused s = false
          /\ batchOpen s b = true
          /\ lastSubmission s (msg_sender e) + cooldownSeconds s <= block_timestamp e)
  /\ (forall err,
        submitContribution e b a s = Revert err ->
        (err = PausedError \/ err = CooldownActive \/ err = BatchNotOpen)
        /\ transact e (SubmitContribution b a) s = (s, [])
        /\ contributionsOf (fst (transact e (SubmitContribution b a) s)) b
           = contributionsOf s b
        /\ lastSubmission (fst (transact e (SubmitContribution b a) s)) (msg_sender e)
           = lastSubmission s (msg_sender e)).
Proof.
  intros Hfit. apply N.leb_le in Hfit.
  assert (forall err, submitContribution e b a s = Revert err ->
                      transact e (SubmitContribution b a) s = (s, [])) as Hrevert.
  { intros err Herr. unfold transact. cbn [call]. rewrite Herr. reflexivity. }
  rewrite submitContribution_eq in *. rewrite Hfit in *.
  split; [reflexivity |].
  destruct (paused s).
  { split; [split; [intros (s' & evs & Hc); discriminate | intros (Hq & _); discriminate] |].
    intros err Herr. rewrite (Hrevert err Herr). inversion Herr. auto 6. }
  destruct (N.ltb_spec (block_timestamp e)
              (lastSubmission s (msg_sender e) + cooldownSeconds s)) as [Hlt | Hge].
  { split; [split; [intros (s' & evs & Hc); discriminate | intros (_ & _ & Hq); lia] |].
    intros err Herr. rewrite (Hrevert err Herr). inversion Herr. auto 6. }
  destruct (batchOpen s b); cbn [negb].
  - split; [split; [auto | eauto] |]. intros err Herr. discriminate.
  - split; [split; [intros (s' & evs & Hc); discriminate | intros (_ & Hq & _); discriminate] |].
    intros err Herr. rewrite (Hrevert err Herr). inversion Herr. auto 6.
Qed.

(** C9 (amended). With [cooldownSeconds = 60], the contract not paused, batch
    [b] open and a principal [P] who has never submitted (so
    [lastSubmissionTime[P]] reads 0): a submission by [P] at time 0 reverts
    with [CooldownActive], as does any first submission before time 60. A
    first submission at a time [t0 >= 60] succeeds; after it, [P]'s next
    submission at [t0 + 30] reverts with [CooldownActive] and changes nothing,
    and the one at [t0 + 61] succeeds. *)
Theorem cooldown_scenario
    (P : address) (b : uint256) (a1 a2 a3 : euint32) (t0 rid : uint256) (s : State) :
  cooldownSeconds s = 60 ->
  paused s = false ->
  batchOpen s b = true ->
  lastSubmissionTime s !! P = None ->
  60 <= t0 ->
  t0 + 60 <= MAX_UINT256 ->
  let at_time t := mkEnv P t rid in
  submitContribution (at_time 0) b a1 s = Revert CooldownActive
  /\ (forall t, t < 60 -> submitContribution (at_time t) b a1 s = Revert CooldownActive)
  /\ exists s1 evs1,
       submitContribution (at_time t0) b a1 s = Ok (tt, s1, evs1)
       /\ submitContribution (at_time (t0 + 30)) b a2 s1 = Revert CooldownActive
       /\ transact (at_time (t0 + 30)) (SubmitContribution b a2) s1 = (s1, [])
       /\ exists s2 evs2,
            submitContribution (at_time (t0 + 61)) b a3 s1 = Ok (tt, s2, evs2).
Proof.
  intros Hcd Hp Hopen Hnever Ht0 Hfit at_time.
  assert (lastSubmission s P = 0) as Hlast
    by (unfold lastSubmission, mget; rewrite Hnever; reflexivity).
  assert (forall t, t < 60 ->
            submitContribution (at_time t) b a1 s = Revert CooldownActive) as Hearly.
  { intros t Ht. rewrite submitContribution_eq, Hp. cbn [msg_sender block_timestamp at_time].
    rewrite Hlast, Hcd. change (0 + 60 <=? MAX_UINT256) with true. cbv iota.
    assert ((t <? 0 + 60) = true) as -> by (apply N.ltb_lt; lia). reflexivity. }
  split; [apply Hearly; lia | split; [exact Hearly |]].
  set (s1 := submitContribution_post (at_time t0) b a1 s).
  assert (cooldownSeconds s1 = 60 /\ paused s1 = false /\ batchOpen s1 b = true
          /\ lastSubmission s1 P = t0) as (Hcd1 & Hp1 & Hopen1 & Hlast1).
  { unfold s1, submitContribution_post, batchOpen, lastSubmission, mget. cbn.
    rewrite lookup_insert_eq. auto. }
  assert ((t0 + 60 <=? MAX_UINT256) = true) as Hfit' by (apply N.leb_le; exact Hfit).
  assert (submitContribution (at_time (t0 + 30)) b a2 s1 = Revert CooldownActive) as Hmid.
  { rewrite submitContribution_eq, Hp1. cbn [msg_sender block_timestamp at_time].
    rewrite Hlast1, Hcd1, Hfit'.
    assert ((t0 + 30 <? t0 + 60) = true) as -> by (apply N.ltb_lt; lia). reflexivity. }
  exists s1, [ContributionSubmitted P b (FHE_toBytes32 a1)]. repeat split.
  - rewrite submitContribution_eq, Hp. cbn [msg_sender block_timestamp at_time].
    rewrite Hlast, Hcd, Hopen. change (0 + 60 <=? MAX_UINT256) with true. cbv iota.
    assert ((t0 <? 0 + 60) = false) as -> by (apply N.ltb_ge; lia). reflexivity.
  - exact Hmid.
  - unfold transact. cbn [call]. rewrite Hmid. reflexivity.
  - eexists _, _. rewrite submitContribution_eq, Hp1.
    cbn [msg_sender block_timestamp at_time].
    rewrite Hlast1, Hcd1, Hfit', Hopen1.
    assert ((t0 + 61 <? t0 + 60) = false) as -> by (apply N.ltb_ge; lia). reflexivity.
Qed.

End Theorems.

(** ** Administration: roles, pause switch, cooldown length *)

(** The entry points that carry the [onlyOwner] modifier. *)
Definition ownerGated (c : Call) : bool :=
  match c with
  | TransferOwnership _ | AddProvider _ | RemoveProvider _ | Pause | Unpause
  | SetCooldownSeconds _ | OpenBatch | CloseBatch _ => true
  | _ => false
  end.

(** The part of storage only owner-gated entry points write. *)
Definition adminView (s : State) :=
  (owner s, isProvider s, paused s, cooldownSeconds s, currentBatchId s, isBatchOpen s).

(** The two entry points that merge into an accumulator. *)
Definition isMerge (c : Call) : bool :=
  match c with
  | SubmitContribution _ _ | ReportUsage _ _ => true
  | _ => false
  end.

Section Administration.
Context `{FHEVM}.

Lemma call_by_stranger e c s s' evs :
  msg_sender e <> owner s ->
  call e c s = Ok (tt, s', evs) ->
  ownerGated c = false /\ adminView s' = adminView s.
Proof.
  intros Hne Hc. unfold adminView.
  call_inv Hc; cbn;
    try (match goal with
         | Hg : negb (isOwner _ _) = false |- _ =>
             unfold isOwner in Hg; apply negb_false_iff, N.eqb_eq in Hg; contradiction
         end);
    try (split; [reflexivity | congruence]).
Qed.

(** X1. Along a trace in which no transaction is sent by the owner, nothing
    the owner controls moves: owner, provider flags, pause switch, cooldown
    length, batch counter and the open flags are those of the start, however
    many calls were attempted and whatever they were. *)
Theorem strangers_cannot_administer (txs : list (Env * Call)) (s : State) :
  Forall (fun tx => msg_sender (fst tx) <> owner s) txs ->
  adminView (fst (run txs s)) = adminView s.
Proof.
  revert s. induction txs as [| [e c] rest IH]; intros s Hall; [reflexivity |].
  apply Forall_cons in Hall as [Hne Hall]. cbn [fst] in Hne. cbn [run].
  destruct (transact_cases e c s) as [(s' & evs & Hc & ->) | (err & Hc & ->)].
  - destruct (call_by_stranger _ _ _ _ _ Hne Hc) as [_ Hview].
    assert (owner s' = owner s) as Hown by (unfold adminView in Hview; congruence).
    specialize (IH s'). rewrite Hown in IH. specialize (IH Hall).
    destruct (run rest s'). cbn [fst] in *. congruence.
  - specialize (IH s Hall). destruct (run rest s). exact IH.
Qed.

(** X2. After [transferOwnership(newOwner)] to somebody else, the previous
    owner is turned away with [NotOwner] by every owner-gated entry point,
    and the new owner passes the owner check of each of them. *)
Theorem old_owner_loses_control
    (e : Env) (newOwner : address) (s s' : State) (evs : list Event) :
  transferOwnership e newOwner s = Ok (tt, s', evs) ->
  newOwner <> msg_sender e ->
  (forall e' c, msg_sender e' = msg_sender e -> ownerGated c = true ->
                call e' c s' = Revert NotOwner)
  /\ (forall e' c, msg_sender e' = newOwner -> call e' c s' <> Revert NotOwner).
Proof.
  intros Hc Hne. rewrite transferOwnership_eq in Hc. guards Hc.
  inversion Hc; subst s' evs. split.
  - intros e' c Hsender Hgated.
    assert (isOwner e' (set_owner newOwner s) = false) as Hno.
    { unfold isOwner. cbn. apply N.eqb_neq. congruence. }
    destruct c; try discriminate Hgated; cbn [call];
      autorewrite with tx_eqs; rewrite Hno; reflexivity.
  - intros e' c Hsender.
    assert (isOwner e' (set_owner newOwner s) = true) as Hyes.
    { unfold isOwner. cbn. apply N.eqb_eq. exact Hsender. }
    destruct c; cbn [call]; autorewrite with tx_eqs; cbv zeta; rewrite ?Hyes; cbn [negb];
      repeat match goal with |- context [if ?c then _ else _] => destruct c end;
      discriminate.
Qed.

(** X3. [addProvider(p)] by the owner makes [p] a provider and changes no
    other flag; repeating it succeeds silently, with no write and no event.
    A following [removeProvider(p)] emits [ProviderRemoved(p)], and from then
    on [reportUsage] from [p] is turned away with [NotProvider], and a second
    [removeProvider(p)] is again silent. *)
Theorem provider_add_remove
    (e : Env) (p : address) (s s1 : State) (evs : list Event) :
  addProvider e p s = Ok (tt, s1, evs) ->
  provider s1 p = true
  /\ (forall q, q <> p -> provider s1 q = provider s q)
  /\ evs = (if provider s p then [] else [ProviderAdded p])
  /\ addProvider e p s1 = Ok (tt, s1, [])
  /\ exists s2,
       removeProvider e p s1 = Ok (tt, s2, [ProviderRemoved p])
       /\ provider s2 p = false
       /\ (forall q, q <> p -> provider s2 q = provider s q)
       /\ removeProvider e p s2 = Ok (tt, s2, [])
       /\ forall e' b u, msg_sender e' = p -> reportUsage e' b u s2 = Revert NotProvider.
Proof.
  intros Hc. rewrite addProvider_eq in Hc.
  destruct (isOwner e s) eqn:Hown; [cbn [negb] in Hc | discriminate].
  assert (provider s1 p = true /\ (forall q, q <> p -> provider s1 q = provider s q)
          /\ evs = (if provider s p then [] else [ProviderAdded p])
          /\ isOwner e s1 = true) as (Hp1 & Hframe1 & Hevs & Hown1).
  { destruct (provider s p) eqn:Hp; cbn [negb] in Hc; inversion Hc; subst; auto.
    unfold provider, mget, isOwner in *. cbn. rewrite lookup_insert_eq.
    repeat split; auto. intros q Hq. rewrite lookup_insert_ne by congruence. reflexivity. }
  conjs; auto.
  - rewrite addProvider_eq, Hown1, Hp1. reflexivity.
  - exists (set_isProvider (<[p := false]> (isProvider s1)) s1).
    assert (provider (set_isProvider (<[p := false]> (isProvider s1)) s1) p = false) as Hp2.
    { unfold provider, mget. cbn. rewrite lookup_insert_eq. reflexivity. }
    conjs.
    + rewrite removeProvider_eq, Hown1, Hp1. reflexivity.
    + exact Hp2.
    + intros q Hq. rewrite <- (Hframe1 q Hq). unfold provider, mget. cbn.
      rewrite lookup_insert_ne by congruence. reflexivity.
    + rewrite removeProvider_eq, Hp2. unfold isOwner in *. cbn. rewrite Hown1. reflexivity.
    + intros e' b u Hsender. rewrite reportUsage_eq, Hsender, Hp2. reflexivity.
Qed.

(** X4. A successful [pause()] is undone exactly by [unpause()]: the storage
    is the one before the pause. In between, a second [pause()] reverts with
    [PausedError]; on the unpaused contract [unpause()] reverts with the same
    [PausedError]. *)
Theorem pause_unpause_round_trip (e : Env) (s s1 : State) (evs : list Event) :
  pause e s = Ok (tt, s1, evs) ->
  paused s = false
  /\ paused s1 = true
  /\ pause e s1 = Revert PausedError
  /\ unpause e s1 = Ok (tt, s, [Unpaused (msg_sender e)])
  /\ unpause e s = Revert PausedError.
Proof.
  intros Hc. rewrite pause_eq in Hc.
  destruct (isOwner e s) eqn:Hown; [cbn [negb] in Hc | discriminate].
  destruct (paused s) eqn:Hp; [discriminate |]. inversion Hc; subst s1 evs.
  assert (isOwner e (set_paused true s) = true) as Hown1 by exact Hown.
  conjs; auto.
  - rewrite pause_eq, Hown1. reflexivity.
  - rewrite unpause_eq, Hown1. cbn. destruct s; cbn in *; subst; reflexivity.
  - rewrite unpause_eq, Hown, Hp. reflexivity.
Qed.

(** X5. The cooldown deadline is a checked addition. Once the owner has set
    the cooldown to the largest [uint256], every principal whose last
    submission time is not zero gets an arithmetic panic from both merge
    entry points, and keeps getting it until the cooldown is lowered. *)
Theorem cooldown_overflow_locks_out (e : Env) (s s' : State) (evs : list Event) :
  setCooldownSeconds e MAX_UINT256 s = Ok (tt, s', evs) ->
  paused s = false ->
  forall e', 0 < lastSubmission s (msg_sender e') ->
    (forall b a, submitContribution e' b a s' = Revert ArithmeticPanic)
    /\ (forall b u, provider s (msg_sender e') = true ->
                    reportUsage e' b u s' = Revert ArithmeticPanic).
Proof.
  intros Hc Hp e' Hlast. rewrite setCooldownSeconds_eq in Hc. guards Hc.
  inversion Hc; subst s' evs.
  assert ((lastSubmission (set_cooldownSeconds MAX_UINT256 s) (msg_sender e')
           + cooldownSeconds (set_cooldownSeconds MAX_UINT256 s) <=? MAX_UINT256) = false)
    as Hover.
  { apply N.leb_gt. cbn. change (lastSubmission (set_cooldownSeconds MAX_UINT256 s))
      with (lastSubmission s). lia. }
  split.
  - intros b a. rewrite submitContribution_eq, Hover. cbn. rewrite Hp. reflexivity.
  - intros b u Hprov. rewrite reportUsage_eq, Hover. cbn.
    change (provider (set_cooldownSeconds MAX_UINT256 s)) with (provider s).
    rewrite Hprov, Hp. reflexivity.
Qed.

End Administration.

(** ** Rate limiting *)

Section RateLimiting.
Context `{FHEVM}.

(** X6. [submitContribution] and [reportUsage] share one timestamp per
    caller. After either of them succeeds at time [t], every merge of either
    kind by the same caller before [t + cooldownSeconds], into whatever
    batch, is turned away: [CooldownActive] from [submitContribution], and
    from [reportUsage] too when the caller is a provider. The timestamps of
    summary requests are not touched by a merge. *)
Theorem merges_share_one_cooldown
    (e : Env) (c : Call) (s s' : State) (evs : list Event) :
  isMerge c = true ->
  call e c s = Ok (tt, s', evs) ->
  lastSubmission s' (msg_sender e) = block_timestamp e
  /\ lastDecryptionRequestTime s' = lastDecryptionRequestTime s
  /\ forall e' b x,
       msg_sender e' = msg_sender e ->
       block_timestamp e' < block_timestamp e + cooldownSeconds s ->
       block_timestamp e + cooldownSeconds s <= MAX_UINT256 ->
       submitContribution e' b x s' = Revert CooldownActive
       /\ reportUsage e' b x s'
          = Revert (if provider s' (msg_sender e) then CooldownActive else NotProvider).
Proof.
  intros Hm Hc.
  assert (lastSubmission s' (msg_sender e) = block_timestamp e
          /\ lastDecryptionRequestTime s' = lastDecryptionRequestTime s
          /\ cooldownSeconds s' = cooldownSeconds s
          /\ paused s' = false) as (Hlast & Hreq & Hcd & Hp).
  { destruct c; try discriminate Hm; cbn [call] in Hc;
      autorewrite with tx_eqs in Hc; guards Hc; inversion Hc; subst;
      unfold lastSubmission, mget; cbn; rewrite lookup_insert_eq; auto. }
  conjs; auto.
  intros e' b x Hsender Hlt Hfit.
  apply N.leb_le in Hfit. apply N.ltb_lt in Hlt. split.
  - rewrite submitContribution_eq, Hp, Hsender, Hlast, Hcd, Hfit, Hlt. reflexivity.
  - rewrite reportUsage_eq, Hp, Hsender, Hlast, Hcd, Hfit, Hlt.
    destruct (provider s' (msg_sender e)); reflexivity.
Qed.

Lemma call_keeps_timers P e c s s' evs :
  msg_sender e <> P ->
  call e c s = Ok (tt, s', evs) ->
  lastSubmission s' P = lastSubmission s P
  /\ lastDecryptionRequest s' P = lastDecryptionRequest s P.
Proof.
  intros Hne Hc. unfold lastSubmission, lastDecryptionRequest, mget.
  call_inv Hc; cbn; rewrite ?lookup_insert_ne by exact Hne; auto.
Qed.

(** X7. A principal's two cooldown timestamps are written by that principal's
    own successful calls only: along any trace of calls from other senders,
    the owner included, they stay what they were. *)
Theorem timers_only_move_by_own_calls
    (P : address) (txs : list (Env * Call)) (s : State) :
  Forall (fun tx => msg_sender (fst tx) <> P) txs ->
  lastSubmission (fst (run txs s)) P = lastSubmission s P
  /\ lastDecryptionRequest (fst (run txs s)) P = lastDecryptionRequest s P.
Proof.
  intros Hall. revert s. induction Hall as [| [e c] rest Hne _ IH]; intros s; [auto |].
  cbn [fst] in Hne. cbn [run].
  destruct (transact_cases e c s) as [(s' & evs & Hc & ->) | (err & Hc & ->)].
  - destruct (call_keeps_timers P _ _ _ _ _ Hne Hc) as [H1 H2].
    specialize (IH s'). destruct (run rest s'). cbn [fst] in *.
    rewrite <- H1, <- H2. exact IH.
  - specialize (IH s). destruct (run rest s). exact IH.
Qed.

End RateLimiting.

(** ** Batch lifecycle in the event log *)

(** The ids announced by [BatchClosed] events, oldest first. *)
Definition closedIds (log : list Event) : list N :=
  omap (fun ev => match ev with BatchClosed b => Some b | _ => None end) log.

(** The transaction is a [closeBatch(b)]. *)
Definition closes (b : uint256) (tx : Env * Call) : bool :=
  match tx with
  | (_, CloseBatch b') => b' =? b
  | _ => false
  end.

Section Lifecycle.
Context `{FHEVM}.

(** What a successful call does to the open flags and announces about them. *)
Lemma call_batch_events e c s s' evs :
  call e c s = Ok (tt, s', evs) ->
  (openedIds evs = [] /\ closedIds evs = [] /\ isBatchOpen s' = isBatchOpen s
   /\ (forall b, closes b (e, c) = false))
  \/ (c = OpenBatch /\ openedIds evs = [currentBatchId s + 1] /\ closedIds evs = []
      /\ isBatchOpen s' = <[currentBatchId s + 1 := true]> (isBatchOpen s))
  \/ (exists b0, c = CloseBatch b0 /\ openedIds evs = [] /\ closedIds evs = [b0]
      /\ batchOpen s b0 = true
      /\ isBatchOpen s' = <[b0 := false]> (isBatchOpen s)).
Proof.
  intros Hc. call_inv Hc; cbn; auto 10.
  right. right. exists b. conjs; auto.
  destruct (batchOpen s b); [reflexivity | discriminate].
Qed.

Lemma call_keeps_open b e c s s' evs :
  closes b (e, c) = false ->
  call e c s = Ok (tt, s', evs) ->
  batchOpen s b = true -> batchOpen s' b = true.
Proof.
  intros Hno Hc Hopen.
  destruct (call_batch_events _ _ _ _ _ Hc)
    as [(_ & _ & Heq & _) | [(_ & _ & _ & Heq) | (b0 & -> & _ & _ & _ & Heq)]];
    unfold batchOpen, mget in *; rewrite Heq; auto.
  - destruct (decide (currentBatchId s + 1 = b)) as [-> | Hne].
    + rewrite lookup_insert_eq. reflexivity.
    + rewrite lookup_insert_ne by exact Hne. exact Hopen.
  - cbn in Hno. apply N.eqb_neq in Hno. rewrite lookup_insert_ne by exact Hno. exact Hopen.
Qed.

(** X8. Only [closeBatch(b)] closes batch [b]: along any trace that contains
    no [closeBatch(b)] transaction, an open batch stays open, through pauses,
    ownership transfers, and the opening and closing of other batches. *)
Theorem open_until_closed (b : uint256) (txs : list (Env * Call)) (s : State) :
  batchOpen s b = true ->
  Forall (fun tx => closes b tx = false) txs ->
  batchOpen (fst (run txs s)) b = true.
Proof.
  intros Hopen Hall. revert s Hopen.
  induction Hall as [| [e c] rest Hno _ IH]; intros s Hopen; [exact Hopen |].
  cbn [run].
  destruct (transact_cases e c s) as [(s' & evs & Hc & ->) | (err & Hc & ->)].
  - specialize (IH s' (call_keeps_open _ _ _ _ _ _ Hno Hc Hopen)).
    destruct (run rest s'). exact IH.
  - specialize (IH s Hopen). destruct (run rest s). exact IH.
Qed.

(** A retired batch is never announced as closed again. *)
Lemma retired_not_closed_again b txs s :
  retired b s -> ~ In b (closedIds (snd (run txs s))).
Proof.
  revert s. induction txs as [| [e c] rest IH]; intros s Hr; [cbn; tauto |].
  cbn [run].
  destruct (transact_cases e c s) as [(s' & evs & Hc & ->) | (err & Hc & ->)].
  - destruct (call_retired b _ _ _ _ _ Hr Hc) as (Hr' & _).
    specialize (IH s' Hr'). destruct (run rest s') as [s2 l2]. cbn [snd] in *.
    unfold closedIds in *. rewrite omap_app, in_app_iff. intros [Hin | Hin]; [| tauto].
    destruct (call_batch_events _ _ _ _ _ Hc)
      as [(_ & Hcl & _) | [(_ & _ & Hcl & _) | (b0 & _ & _ & Hcl & Hopen & _)]];
      unfold closedIds in Hcl; rewrite Hcl in Hin; cbn in Hin; try tauto.
    destruct Hin as [-> | []]. destruct Hr as [_ Hclosed]. congruence.
  - specialize (IH s Hr). destruct (run rest s). exact IH.
Qed.

Lemma run_closed_ids txs s :
  open_allocated s ->
  NoDup (closedIds (snd (run txs s)))
  /\ forall b, In b (closedIds (snd (run txs s))) ->
               batchOpen s b = true \/ In b (openedIds (snd (run txs s))).
Proof.
  revert s. induction txs as [| [e c] rest IH]; intros s Hinv.
  { cbn. split; [constructor | tauto]. }
  cbn [run].
  destruct (transact_cases e c s) as [(s' & evs & Hc & ->) | (err & Hc & ->)].
  - pose proof (call_open_allocated _ _ _ _ _ Hinv Hc) as Hinv'.
    pose proof (retired_not_closed_again) as Hagain.
    specialize (IH s' Hinv'). specialize (fun b => Hagain b rest s').
    destruct (run rest s') as [s2 l2]. cbn [snd] in *.
    destruct IH as [IHnd IHin].
    unfold closedIds, openedIds in *. rewrite !omap_app.
    destruct (call_batch_events _ _ _ _ _ Hc)
      as [(Hop & Hcl & Heq & _) | [(_ & Hop & Hcl & Heq) | (b0 & -> & Hop & Hcl & Hopen & Heq)]];
      unfold closedIds, openedIds in Hop, Hcl; rewrite Hop, Hcl; cbn [app].
    + split; [exact IHnd |]. intros b Hin. unfold batchOpen in *. rewrite <- Heq. auto.
    + split; [exact IHnd |]. intros b Hin.
      destruct (IHin b Hin) as [Hb | Hb]; [| right; right; exact Hb].
      unfold batchOpen, mget in *. rewrite Heq in Hb.
      destruct (decide (currentBatchId s + 1 = b)) as [-> | Hne].
      * right. left. reflexivity.
      * rewrite lookup_insert_ne in Hb by exact Hne. left. exact Hb.
    + split.
      * apply NoDup_cons. split; [| exact IHnd].
        intros Hin. apply list_elem_of_In in Hin. revert Hin. apply Hagain.
        exact (closeBatch_retires _ _ _ _ _ Hinv Hc).
      * intros b [<- | Hin]; [left; exact Hopen |].
        destruct (IHin b Hin) as [Hb | Hb]; [| right; exact Hb].
        unfold batchOpen, mget in *. rewrite Heq in Hb.
        destruct (decide (b0 = b)) as [-> | Hne].
        -- rewrite lookup_insert_eq in Hb. discriminate.
        -- rewrite lookup_insert_ne in Hb by exact Hne. left. exact Hb.
  - specialize (IH s Hinv). destruct (run rest s). exact IH.
Qed.

(** X9. In the event log of any trace from deployment no batch id is
    announced closed twice, and every id announced closed was announced
    opened in the same log. *)
Theorem each_batch_closed_once (deployer : address) (txs : list (Env * Call)) :
  let log := snd (run txs (fst (constructor deployer))) in
  NoDup (closedIds log)
  /\ Forall (fun b => In b (openedIds log)) (closedIds log).
Proof.
  intros log.
  destruct (run_closed_ids txs (fst (constructor deployer))) as [Hnd Hin].
  { apply reachable_open_allocated. constructor. }
  split; [exact Hnd |]. apply Forall_forall. intros b Hb.
  apply list_elem_of_In in Hb. destruct (Hin b Hb) as [Hopen | Hop]; [| exact Hop].
  unfold batchOpen, mget in Hopen. cbn in Hopen. rewrite lookup_empty in Hopen.
  discriminate.
Qed.

End Lifecycle.

(** ** Pending requests on reachable states *)

Section Pending.
Context `{FHEVM}.

(** Ids 0 and 1 are never handed out: no flag, no accumulator. *)
Definition low_ids_unused (s : State) : Prop :=
  1 <= currentBatchId s
  /\ forall b, b < 2 ->
       batchOpen s b = false
       /\ totalContributionsEncrypted s !! b = None
       /\ totalUsageEncrypted s !! b = None.

Lemma call_low_ids_unused e c s s' evs :
  low_ids_unused s -> call e c s = Ok (tt, s', evs) -> low_ids_unused s'.
Proof.
  unfold low_ids_unused, batchOpen, mget.
  intros [Hcur Hlow] Hc. call_inv Hc; cbn; try (split; [lia | assumption]; fail);
    try (split; [assumption | assumption]; fail).
  - (* openBatch *)
    split; [lia |]. intros b Hb. rewrite !lookup_insert_ne by lia. apply Hlow, Hb.
  - (* closeBatch *)
    split; [assumption |]. intros b0 Hb. destruct (Hlow b0 Hb) as (Ho & Hc1 & Hu1).
    conjs; auto. destruct (decide (b = b0)) as [-> | Hne].
    + rewrite lookup_insert_eq. reflexivity.
    + rewrite lookup_insert_ne by exact Hne. exact Ho.
  - (* submitContribution *)
    split; [assumption |]. intros b0 Hb. destruct (Hlow b0 Hb) as (Ho & Hc1 & Hu1).
    conjs; auto. open_guard. destruct (decide (b = b0)) as [-> | Hne].
    + unfold batchOpen, mget in *. congruence.
    + rewrite lookup_insert_ne by exact Hne. exact Hc1.
  - (* reportUsage *)
    split; [assumption |]. intros b0 Hb. destruct (Hlow b0 Hb) as (Ho & Hc1 & Hu1).
    conjs; auto. open_guard. destruct (decide (b = b0)) as [-> | Hne].
    + unfold batchOpen, mget in *. congruence.
    + rewrite lookup_insert_ne by exact Hne. exact Hu1.
Qed.

Lemma reachable_low_ids_unused s : reachable s -> low_ids_unused s.
Proof.
  induction 1 as [d | s s' e c evs _ IH Hc].
  - split; [cbn; lia |]. intros b _. unfold batchOpen, mget. cbn.
    rewrite !lookup_empty. auto.
  - eapply call_low_ids_unused; eauto.
Qed.

(** Every stored context names a retired batch and holds the hash of the
    handles that batch has now. *)
Definition contexts_consistent (s : State) : Prop :=
  forall rid ctx,
    decryptionContexts s !! rid = Some ctx ->
    retired (batchId ctx) s /\ stateHash ctx = accumulatorHash s (batchId ctx).

Lemma accumulatorHash_ext s s' b :
  totalContributionsEncrypted s' !! b = totalContributionsEncrypted s !! b ->
  totalUsageEncrypted s' !! b = totalUsageEncrypted s !! b ->
  accumulatorHash s' b = accumulatorHash s b.
Proof.
  intros Hc Hu. unfold accumulatorHash, contributionsOf, usageOf, mget.
  rewrite Hc, Hu. reflexivity.
Qed.

Lemma call_contexts_consistent e c s s' evs :
  FHE_isInitialized 0 = false ->
  reachable s -> contexts_consistent s ->
  call e c s = Ok (tt, s', evs) -> contexts_consistent s'.
Proof.
  intros Hzero Hreach Hinv Hc rid ctx Hlook.
  destruct (registers rid (e, c)) eqn:Hreg; [| destruct (delivers rid (e, c)) eqn:Hdel].
  - (* the call registers [rid] *)
    destruct c; try discriminate Hreg. cbn in Hreg. apply N.eqb_eq in Hreg. subst rid.
    cbn [call] in Hc.
    destruct (request_registers _ _ _ _ _ Hc) as (Hctx & _ & _ & _ & Hh & _).
    rewrite Hctx in Hlook. inversion Hlook; subst ctx. cbn [batchId stateHash].
    split; [eapply requested_batch_retired; eauto |].
    unfold handlesOf in Hh. unfold accumulatorHash. inversion Hh as [[Hc1 Hu1]].
    rewrite Hc1, Hu1. reflexivity.
  - (* the call delivers [rid] *)
    destruct c; try discriminate Hdel. cbn in Hdel. apply N.eqb_eq in Hdel. subst requestId.
    cbn [call] in Hc. rewrite myCallback_eq in Hc. cbv zeta in Hc. guards Hc.
    inversion Hc; subst s' evs. unfold callback_post in Hlook. cbn in Hlook.
    rewrite lookup_insert_eq in Hlook. inversion Hlook; subst ctx. cbn [batchId stateHash].
    match goal with
    | Hh : negb (_ =? _) = false |- _ => apply negb_false_iff, N.eqb_eq in Hh; rename Hh into Hhash
    end.
    split; [| symmetry; exact Hhash].
    unfold contextOf, mget.
    destruct (decryptionContexts s !! rid) as [c0 |] eqn:Hold; cbn [default].
    + exact (proj1 (Hinv rid c0 Hold)).
    + destruct (reachable_low_ids_unused s Hreach) as [_ Hlow].
      split; [cbn; lia | exact (proj1 (Hlow 0 ltac:(lia)))].
  - (* the context is older than the call *)
    rewrite (call_keeps_context rid _ _ _ _ _ Hreg Hdel Hc) in Hlook.
    destruct (Hinv rid ctx Hlook) as [Hr Hh].
    destruct (call_retired _ _ _ _ _ _ Hr Hc) as (Hr' & Hc1 & Hu1).
    split; [exact Hr' |]. rewrite Hh. symmetry. apply accumulatorHash_ext; assumption.
Qed.

Lemma reachable_contexts_consistent s :
  FHE_isInitialized 0 = false -> reachable s -> contexts_consistent s.
Proof.
  intros Hzero. induction 1 as [d | s s' e c evs Hs IH Hc].
  - intros rid ctx Hlook. cbn in Hlook. rewrite lookup_empty in Hlook. discriminate.
  - eapply call_contexts_consistent; eauto.
Qed.

(** X10. On the deployed contract, with the library's [isInitialized] (the
    zero handle is uninitialised), a registered request is never turned down
    with [StateMismatch]: its batch is retired, so the stored hash is still
    the hash of the current handles. While it is unprocessed, any delivery
    the verifier accepts that carries the two 32-byte words completes it,
    whoever sends it and however much later. *)
Theorem registered_request_completes
    (s : State) (rid : uint256) (ctx : DecryptionContext) :
  FHE_isInitialized 0 = false ->
  reachable s ->
  decryptionContexts s !! rid = Some ctx ->
  (forall e cleartexts proof,
     myCallback e rid cleartexts proof s <> Revert StateMismatch)
  /\ (processed ctx = false ->
      forall e cleartexts proof,
        FHE_checkSignatures rid cleartexts proof = true ->
        (64 <= length cleartexts)%nat ->
        myCallback e rid cleartexts proof s
        = Ok (tt, callback_post rid s,
              [DecryptionCompleted rid (batchId ctx)
                 (abi_decode_uint256 (sub_bytes cleartexts 0 32))
                 (abi_decode_uint256 (sub_bytes cleartexts 32 64))])).
Proof.
  intros Hzero Hreach Hlook.
  destruct (reachable_contexts_consistent s Hzero Hreach rid ctx Hlook) as [_ Hh].
  assert (contextOf s rid = ctx) as Hctx
    by (unfold contextOf, mget; rewrite Hlook; reflexivity).
  assert ((accumulatorHash s (batchId ctx) =? stateHash ctx) = true) as Heq
    by (apply N.eqb_eq; congruence).
  split.
  - intros e cleartexts proof. rewrite myCallback_eq. cbv zeta. rewrite Hctx, Heq.
    cbn [negb].
    destruct (processed ctx); [discriminate |].
    destruct (FHE_checkSignatures rid cleartexts proof); cbn [negb]; [| discriminate].
    destruct (64 <=? length cleartexts)%nat; discriminate.
  - intros Hp e cleartexts proof Hsig Hlen. rewrite myCallback_eq. cbv zeta.
    rewrite Hctx, Hp, Heq, Hsig. apply Nat.leb_le in Hlen. rewrite Hlen. reflexivity.
Qed.

(** What the library's handles satisfy: the zero handle is uninitialised, and
    the handles [asEuint32(0)] and [add] return are initialised. *)
Definition handles_initialised : Prop :=
  FHE_isInitialized 0 = false
  /\ FHE_isInitialized (FHE_asEuint32 0) = true
  /\ forall x a, FHE_isInitialized (FHE_add x a) = true.

(** Both accumulators of every allocated batch are initialised. *)
Definition accumulators_ready (s : State) : Prop :=
  forall b, 2 <= b <= currentBatchId s ->
    FHE_isInitialized (contributionsOf s b) = true
    /\ FHE_isInitialized (usageOf s b) = true.

Lemma call_accumulators_ready e c s s' evs :
  handles_initialised ->
  accumulators_ready s -> call e c s = Ok (tt, s', evs) -> accumulators_ready s'.
Proof.
  unfold accumulators_ready, contributionsOf, usageOf, mget.
  intros (_ & Hinit0 & Hadd) Hinv Hc. call_inv Hc; cbn; try assumption.
  - (* openBatch *)
    intros b Hb. destruct (decide (currentBatchId s + 1 = b)) as [-> | Hne].
    + rewrite !lookup_insert_eq. cbn. auto.
    + rewrite !lookup_insert_ne by exact Hne. apply Hinv. lia.
  - (* submitContribution *)
    intros b0 Hb. destruct (Hinv b0 Hb) as [Hc1 Hu1]. split; [| exact Hu1].
    destruct (decide (b = b0)) as [-> | Hne].
    + rewrite lookup_insert_eq. cbn. apply Hadd.
    + rewrite lookup_insert_ne by exact Hne. exact Hc1.
  - (* reportUsage *)
    intros b0 Hb. destruct (Hinv b0 Hb) as [Hc1 Hu1]. split; [exact Hc1 |].
    destruct (decide (b = b0)) as [-> | Hne].
    + rewrite lookup_insert_eq. cbn. apply Hadd.
    + rewrite lookup_insert_ne by exact Hne. exact Hu1.
Qed.

Lemma reachable_accumulators_ready s :
  handles_initialised -> reachable s -> accumulators_ready s.
Proof.
  intros Hh. induction 1 as [d | s s' e c evs _ IH Hc].
  - intros b Hb. cbn in Hb. lia.
  - eapply call_accumulators_ready; eauto.
Qed.

(** X11. On the deployed contract, for a caller who is past the pause and
    cooldown guards, [requestBatchSummaryDecryption(b)] succeeds exactly when
    [b] has been allocated by [openBatch] ([2 <= b <= currentBatchId]) and is
    closed. An id that was never allocated (0, 1, or beyond the counter) is
    turned down with [InvalidBatchId]. *)
Theorem request_needs_allocated_closed_batch (e : Env) (b : uint256) (s : State) :
  handles_initialised ->
  reachable s ->
  paused s = false ->
  lastDecryptionRequest s (msg_sender e) + cooldownSeconds s <= MAX_UINT256 ->
  lastDecryptionRequest s (msg_sender e) + cooldownSeconds s <= block_timestamp e ->
  ((exists s' evs, requestBatchSummaryDecryption e b s = Ok (tt, s', evs))
   <-> (2 <= b <= currentBatchId s /\ batchOpen s b = false))
  /\ (b < 2 \/ currentBatchId s < b ->
      requestBatchSummaryDecryption e b s = Revert InvalidBatchId).
Proof.
  intros Hh Hreach Hp Hfit Hpast.
  pose proof (reachable_accumulators_ready s Hh Hreach) as Hready.
  pose proof (reachable_accumulators_allocated s Hreach) as Halloc.
  pose proof (reachable_open_allocated s Hreach) as Hopen.
  destruct (reachable_low_ids_unused s Hreach) as [_ Hlow].
  destruct Hh as (Hzero & _).
  apply N.leb_le in Hfit. apply N.ltb_ge in Hpast.
  rewrite requestBatchSummaryDecryption_eq, Hp, Hfit, Hpast.
  assert (b < 2 \/ currentBatchId s < b ->
          batchOpen s b = false /\ contributionsOf s b = 0) as Hout.
  { intros [Hb | Hb].
    - destruct (Hlow b Hb) as (Ho & Hc1 & _). split; [exact Ho |].
      unfold contributionsOf, mget. rewrite Hc1. reflexivity.
    - destruct (Halloc b Hb) as [Hc1 _]. split.
      + destruct (batchOpen s b) eqn:Ho; [| reflexivity]. apply Hopen in Ho. lia.
      + unfold contributionsOf, mget. rewrite Hc1. reflexivity. }
  split; [split |].
  - intros (s' & evs & Hok).
    destruct (batchOpen s b) eqn:Ho; [discriminate |].
    split; [| reflexivity].
    destruct (N.lt_ge_cases b 2) as [Hb | Hb];
      [| destruct (N.le_gt_cases b (currentBatchId s)) as [Hb' | Hb']; [lia |]].
    + destruct (Hout (or_introl Hb)) as [_ H0]. rewrite H0, Hzero in Hok. discriminate.
    + destruct (Hout (or_intror Hb')) as [_ H0]. rewrite H0, Hzero in Hok. discriminate.
  - intros [Hb Ho]. destruct (Hready b Hb) as [Hc1 Hu1]. rewrite Ho, Hc1, Hu1. eauto.
  - intros Hb. destruct (Hout Hb) as [Ho H0]. rewrite Ho, H0, Hzero. reflexivity.
Qed.

End Pending.

(** ** The window between a summary request and its callback *)

Section RequestWindow.
Context `{FHEVM}.






End RequestWindow.

(** ** Accumulators as folds of the accepted merges *)

(** The amount a call contributes to batch [b], if it is a contribution to it. *)
Definition contributionTo (b : uint256) (c : Call) : option N :=
  match c with
  | SubmitContribution b' a => if b' =? b then Some a else None
  | _ => None
  end.

(** The usage a call reports for batch [b], if it is a report for it. *)
Definition usageTo (b : uint256) (c : Call) : option N :=
  match c with
  | ReportUsage b' u => if b' =? b then Some u else None
  | _ => None
  end.

(** The handles logged for batch [b] by [ContributionSubmitted]. *)
Definition contributionEvents (b : uint256) (log : list Event) : list N :=
  omap (fun ev => match ev with
                  | ContributionSubmitted _ b' x => if b' =? b then Some x else None
                  | _ => None
                  end) log.

(** The handles logged for batch [b] by [UsageReported]. *)
Definition usageEvents (b : uint256) (log : list Event) : list N :=
  omap (fun ev => match ev with
                  | UsageReported _ b' x => if b' =? b then Some x else None
                  | _ => None
                  end) log.

Section Folds.
Context `{FHEVM}.

(** The selected operands of the transactions of a trace that went through,
    in order. *)
Fixpoint accepted (sel : Call -> option N) (txs : list (Env * Call)) (s : State) : list N :=
  match txs with
  | [] => []
  | (e, c) :: rest =>
      match call e c s with
      | Ok (_, s', _) =>
          match sel c with
          | Some a => a :: accepted sel rest s'
          | None => accepted sel rest s'
          end
      | Revert _ => accepted sel rest s
      end
  end.

(** One merge: [_initIfNeeded] on the accumulator, then [FHE.add]. *)
Definition merge_step (acc a : N) : N := FHE_add (initialised acc) a.

Lemma call_merges b e c s s' evs :
  b <= currentBatchId s ->
  call e c s = Ok (tt, s', evs) ->
  b <= currentBatchId s'
  /\ contributionsOf s' b
     = match contributionTo b c with
       | Some a => merge_step (contributionsOf s b) a
       | None => contributionsOf s b
       end
  /\ usageOf s' b
     = match usageTo b c with
       | Some u => merge_step (usageOf s b) u
       | None => usageOf s b
       end
  /\ contributionEvents b evs
     = match contributionTo b c with Some a => [FHE_toBytes32 a] | None => [] end
  /\ usageEvents b evs
     = match usageTo b c with Some u => [FHE_toBytes32 u] | None => [] end.
Proof.
  intros Hle Hc. unfold contributionsOf, usageOf, merge_step, mget.
  call_inv Hc; cbn; auto 10.
  - (* openBatch *)
    rewrite !lookup_insert_ne by lia. conjs; auto. lia.
  - (* submitContribution *)
    destruct (N.eqb_spec b0 b) as [-> | Hne].
    + rewrite lookup_insert_eq. auto 10.
    + rewrite lookup_insert_ne by exact Hne. auto 10.
  - (* reportUsage *)
    destruct (N.eqb_spec b0 b) as [-> | Hne].
    + rewrite lookup_insert_eq. auto 10.
    + rewrite lookup_insert_ne by exact Hne. auto 10.
Qed.

(** X12. For a batch that has been allocated, the contributions accumulator
    after any trace is the left fold of [FHE.add] over the amounts of exactly
    the [submitContribution] calls for that batch that went through, in
    order, starting from the accumulator before the trace; likewise the usage
    accumulator and the accepted [reportUsage] calls. The handles logged by
    [ContributionSubmitted] and [UsageReported] for the batch are those of
    the same operands in the same order. *)
Theorem accumulators_fold_accepted_merges
    (b : uint256) (txs : list (Env * Call)) (s : State) :
  b <= currentBatchId s ->
  contributionsOf (fst (run txs s)) b
  = fold_left merge_step (accepted (contributionTo b) txs s) (contributionsOf s b)
  /\ usageOf (fst (run txs s)) b
     = fold_left merge_step (accepted (usageTo b) txs s) (usageOf s b)
  /\ contributionEvents b (snd (run txs s))
     = map FHE_toBytes32 (accepted (contributionTo b) txs s)
  /\ usageEvents b (snd (run txs s))
     = map FHE_toBytes32 (accepted (usageTo b) txs s).
Proof.
  revert s. induction txs as [| [e c] rest IH]; intros s Hle; [cbn; auto |].
  cbn [run accepted]. unfold transact.
  destruct (call e c s) as [[[[] s'] evs] | err] eqn:Hc.
  - destruct (call_merges b _ _ _ _ _ Hle Hc) as (Hle' & Hc1 & Hu1 & Hce & Hue).
    specialize (IH s' Hle'). destruct (run rest s') as [s2 l2]. cbn [fst snd] in *.
    destruct IH as (IHc & IHu & IHce & IHue).
    unfold contributionEvents, usageEvents in *. rewrite !omap_app, Hce, Hue.
    rewrite IHc, IHu, IHce, IHue, Hc1, Hu1.
    destruct (contributionTo b c), (usageTo b c); cbn; auto.
  - specialize (IH s Hle). destruct (run rest s) as [s2 l2]. exact IH.
Qed.

End Folds.

(** ** The access-control state as a function of the event log *)

Definition ownerStep (o : address) (ev : Event) : address :=
  match ev with
  | OwnershipTransferred _ newOwner => newOwner
  | _ => o
  end.

Definition pausedStep (flag : bool) (ev : Event) : bool :=
  match ev with
  | Paused _ => true
  | Unpaused _ => false
  | _ => flag
  end.

Definition providerStep (p : address) (flag : bool) (ev : Event) : bool :=
  match ev with
  | ProviderAdded q => if q =? p then true else flag
  | ProviderRemoved q => if q =? p then false else flag
  | _ => flag
  end.

Section Audit.
Context `{FHEVM}.

Lemma call_replays e c s s' evs p :
  call e c s = Ok (tt, s', evs) ->
  fold_left ownerStep evs (owner s) = owner s'
  /\ fold_left pausedStep evs (paused s) = paused s'
  /\ fold_left (providerStep p) evs (provider s p) = provider s' p.
Proof.
  intros Hc. unfold provider, mget. call_inv Hc; cbn; auto.
  - (* addProvider, flag written *)
    destruct (N.eqb_spec provider0 p) as [-> | Hne].
    + rewrite lookup_insert_eq. auto.
    + rewrite lookup_insert_ne by exact Hne. auto.
  - (* removeProvider, flag written *)
    destruct (N.eqb_spec provider0 p) as [-> | Hne].
    + rewrite lookup_insert_eq. auto.
    + rewrite lookup_insert_ne by exact Hne. auto.
Qed.

Lemma run_replays txs s p :
  fold_left ownerStep (snd (run txs s)) (owner s) = owner (fst (run txs s))
  /\ fold_left pausedStep (snd (run txs s)) (paused s) = paused (fst (run txs s))
  /\ fold_left (providerStep p) (snd (run txs s)) (provider s p)
     = provider (fst (run txs s)) p.
Proof.
  revert s. induction txs as [| [e c] rest IH]; intros s; [cbn; auto |].
  cbn [run].
  destruct (transact_cases e c s) as [(s' & evs & Hc & ->) | (err & Hc & ->)].
  - destruct (call_replays _ _ _ _ _ p Hc) as (Ho & Hp & Hf).
    specialize (IH s'). destruct (run rest s') as [s2 l2]. cbn [fst snd] in *.
    rewrite !fold_left_app, Ho, Hp, Hf. exact IH.
  - specialize (IH s). destruct (run rest s) as [s2 l2]. exact IH.
Qed.

(** X13. The event log determines the access-control state. After any trace
    from deployment, the owner is the [newOwner] of the last
    [OwnershipTransferred] (the deployer if there is none), the contract is
    paused exactly when the last of the [Paused]/[Unpaused] events is
    [Paused], and an address is a provider exactly when the last
    [ProviderAdded]/[ProviderRemoved] event about it, the constructor's
    included, is [ProviderAdded]. *)
Theorem events_determine_access_control
    (deployer p : address) (txs : list (Env * Call)) :
  let s0 := fst (constructor deployer) in
  let log := snd (constructor deployer) ++ snd (run txs s0) in
  owner (fst (run txs s0)) = fold_left ownerStep log deployer
  /\ paused (fst (run txs s0)) = fold_left pausedStep log false
  /\ provider (fst (run txs s0)) p = fold_left (providerStep p) log false.
Proof.
  intros s0 log. destruct (run_replays txs s0 p) as (Ho & Hp & Hf).
  unfold log. cbn [constructor snd app fold_left ownerStep pausedStep providerStep].
  rewrite <- Ho, <- Hp, <- Hf. conjs; try reflexivity.
  f_equal. unfold provider, mget. cbn.
  destruct (N.eqb_spec deployer p) as [-> | Hne].
  - rewrite lookup_insert_eq. reflexivity.
  - rewrite lookup_insert_ne by exact Hne. rewrite lookup_empty. reflexivity.
Qed.

End Audit.

(** ** The cleartext buffer *)

Lemma abi_decode_uint256_bound (w : list Byte.byte) (acc : N) :
  fold_left (fun a b => a * 256 + Byte.to_N b) w acc
  < (acc + 1) * 256 ^ N.of_nat (length w).
Proof.
  revert acc. induction w as [| b w IH]; intros acc.
  - cbn. lia.
  - cbn [fold_left length]. specialize (IH (acc * 256 + Byte.to_N b)).
    pose proof (Byte.to_N_bounded b) as Hb.
    rewrite Nat2N.inj_succ, N.pow_succ_r'.
    eapply N.lt_le_trans; [exact IH |]. nia.
Qed.

Lemma sub_bytes_length (buf : list Byte.byte) (lo hi : nat) :
  (lo <= hi)%nat -> (hi <= length buf)%nat -> length (sub_bytes buf lo hi) = (hi - lo)%nat.
Proof.
  intros Hlo Hhi. unfold sub_bytes. rewrite length_firstn, length_skipn. lia.
Qed.

Lemma sub_bytes_app (buf extra : list Byte.byte) (lo hi : nat) :
  (hi <= length buf)%nat -> sub_bytes (buf ++ extra) lo hi = sub_bytes buf lo hi.
Proof.
  intros Hhi. unfold sub_bytes.
  destruct (Nat.le_gt_cases lo hi) as [Hlo | Hlo].
  - rewrite skipn_app, firstn_app, length_skipn.
    replace (lo - length buf)%nat with 0%nat by lia.
    replace (hi - lo - (length buf - lo))%nat with 0%nat by lia.
    cbn. rewrite app_nil_r. reflexivity.
  - replace (hi - lo)%nat with 0%nat by lia. reflexivity.
Qed.

Section Cleartexts.
Context `{FHEVM}.

(** X14. A successful callback emits one [DecryptionCompleted] event whose two
    totals are the big-endian values of bytes 0..31 and 32..63 of the
    cleartext buffer, each within [uint256]; a buffer shorter than 64 bytes,
    even with an accepted proof, is turned down. Bytes beyond the first 64
    play no part in the totals: a longer buffer with the same first 64 bytes
    decodes to the same two values. *)
Theorem callback_totals_from_first_64_bytes
    (e : Env) (rid : uint256) (cleartexts proof : bytes) (s s' : State) (evs : list Event) :
  myCallback e rid cleartexts proof s = Ok (tt, s', evs) ->
  (64 <= length cleartexts)%nat
  /\ exists totalContributions totalUsage,
       evs = [DecryptionCompleted rid (batchId (contextOf s rid))
                totalContributions totalUsage]
       /\ totalContributions = abi_decode_uint256 (firstn 32 cleartexts)
       /\ totalUsage = abi_decode_uint256 (firstn 32 (skipn 32 cleartexts))
       /\ totalContributions <= MAX_UINT256
       /\ totalUsage <= MAX_UINT256
       /\ forall extra,
            abi_decode_uint256 (sub_bytes (cleartexts ++ extra) 0 32) = totalContributions
            /\ abi_decode_uint256 (sub_bytes (cleartexts ++ extra) 32 64) = totalUsage.
Proof.
  intros Hc. rewrite myCallback_eq in Hc. cbv zeta in Hc. guards Hc.
  inversion Hc; subst s' evs.
  match goal with
  | Hl : (64 <=? length cleartexts)%nat = true |- _ => apply Nat.leb_le in Hl; rename Hl into Hlen
  end.
  split; [exact Hlen |].
  assert (forall lo hi, (lo <= hi)%nat -> (hi <= length cleartexts)%nat -> (hi - lo = 32)%nat ->
            abi_decode_uint256 (sub_bytes cleartexts lo hi) <= MAX_UINT256) as Hbound.
  { intros lo hi Hlo Hhi Hw. unfold abi_decode_uint256.
    pose proof (abi_decode_uint256_bound (sub_bytes cleartexts lo hi) 0) as Hlt.
    rewrite (sub_bytes_length _ _ _ Hlo Hhi), Hw in Hlt.
    change ((0 + 1) * 256 ^ N.of_nat 32) with (MAX_UINT256 + 1) in Hlt. lia. }
  eexists _, _. conjs; try reflexivity.
  - apply Hbound; lia.
  - apply Hbound; lia.
  - intros extra. rewrite !sub_bytes_app by lia. auto.
Qed.

End Cleartexts.

(** ** Observability *)

Section Observability.
Context `{FHEVM}.

Lemma call_silent e c s s' evs :
  call e c s = Ok (tt, s', evs) -> evs = [] -> s' = s.
Proof.
  intros Hc. call_inv Hc; intros Hsilent; try discriminate Hsilent; reflexivity.
Qed.

(** X15. Every storage write is announced: a trace whose event log is empty
    leaves the storage exactly as it found it, whatever was called. *)
Theorem silent_trace_changes_nothing (txs : list (Env * Call)) (s : State) :
  snd (run txs s) = [] -> fst (run txs s) = s.
Proof.
  revert s. induction txs as [| [e c] rest IH]; intros s; [reflexivity |].
  cbn [run].
  destruct (transact_cases e c s) as [(s' & evs & Hc & ->) | (err & Hc & ->)].
  - specialize (IH s'). destruct (run rest s') as [s2 l2]. cbn [fst snd] in *.
    intros Hnil. apply app_eq_nil in Hnil as [Hevs Hl2].
    rewrite (IH Hl2). exact (call_silent _ _ _ _ _ Hc Hevs).
  - specialize (IH s). destruct (run rest s) as [s2 l2]. cbn [fst snd app] in *. exact IH.
Qed.

(** X16. On the deployed contract the re-initialisation in [_initIfNeeded]
    never fires: [openBatch] has initialised both accumulators of every batch
    that can be open. A successful merge therefore finds an initialised
    accumulator and stores exactly [FHE.add] of it and the operand. *)
Theorem merge_adds_to_initialised_accumulator
    (e : Env) (b : uint256) (x : euint32) (s : State) :
  handles_initialised ->
  reachable s ->
  (forall s' evs,
     submitContribution e b x s = Ok (tt, s', evs) ->
     FHE_isInitialized (contributionsOf s b) = true
     /\ contributionsOf s' b = FHE_add (contributionsOf s b) x)
  /\ (forall s' evs,
        reportUsage e b x s = Ok (tt, s', evs) ->
        FHE_isInitialized (usageOf s b) = true
        /\ usageOf s' b = FHE_add (usageOf s b) x).
Proof.
  intros Hh Hreach.
  assert (batchOpen s b = true ->
          FHE_isInitialized (contributionsOf s b) = true
          /\ FHE_isInitialized (usageOf s b) = true) as Hready.
  { intros Hopen. apply (reachable_accumulators_ready s Hh Hreach).
    split; [| apply (reachable_open_allocated s Hreach), Hopen].
    destruct (N.lt_ge_cases b 2) as [Hlow | Hge]; [| exact Hge].
    destruct (reachable_low_ids_unused s Hreach) as [_ Hlows].
    destruct (Hlows b Hlow) as [Hclosed _]. congruence. }
  split; intros s' evs Hc.
  - destruct (submitContribution_merges _ _ _ _ _ _ Hc) as (Hopen & Hnew & _).
    destruct (Hready Hopen) as [Hinit _]. split; [exact Hinit |].
    rewrite Hnew. unfold initialised. rewrite Hinit. reflexivity.
  - destruct (reportUsage_merges _ _ _ _ _ _ Hc) as (Hopen & Hnew & _).
    destruct (Hready Hopen) as [_ Hinit]. split; [exact Hinit |].
    rewrite Hnew. unfold initialised. rewrite Hinit. reflexivity.
Qed.

End Observability.

(** ** Scenarios on the test double *)

Section Scenarios.
#[local] Existing Instance mockFHE.




(** C2, as stated, fails: request id 5 was never registered, and its callback
    is turned down with [StateMismatch], not [ReplayDetected]. *)
Lemma callback_unknown_id_not_replay :
  decryptionContexts awaiting_callback !! 5 = None
  /\ myCallback (env 9 200) 5 payload accepted_proof awaiting_callback
     = Revert StateMismatch
  /\ myCallback (env 9 200) 5 payload accepted_proof awaiting_callback
     <> Revert ReplayDetected.
Proof.
  conjs; [vm_compute; reflexivity .. | vm_compute; discriminate].
Qed.

(** C2 (amended) at work: the delivery for id 1 succeeds once, a later one
    from another account with another payload is a replay; id 5 is unknown. *)
Lemma callback_replay_guard_witness :
  let s := awaiting_callback in
  let s' := callback_post 1 s in
  myCallback (env 9 200) 1 payload accepted_proof s
  = Ok (tt, s', [DecryptionCompleted 1 2 100 0])
  /\ myCallback (env 10 300) 1 [] [] (fst (run [(env 7 250, OpenBatch)] s'))
     = Revert ReplayDetected
  /\ decryptionContexts s !! 5 = None
  /\ myCallback (env 9 200) 5 payload accepted_proof s = Revert StateMismatch.
Proof.
  intros s s'.
  assert (myCallback (env 9 200) 1 payload accepted_proof s
          = Ok (tt, s', [DecryptionCompleted 1 2 100 0])) as Hok
    by (vm_compute; reflexivity).
  assert (decryptionContexts s !! 5 = None) as Hnone by (vm_compute; reflexivity).
  destruct (callback_replay_guard s 1) as (_ & _ & Honce).
  destruct (callback_replay_guard s 5) as (_ & Hunknown & _).
  conjs.
  - exact Hok.
  - destruct (Honce _ _ _ _ _ Hok) as (_ & _ & Hlater).
    apply (Hlater [(env 7 250, OpenBatch)]). repeat constructor.
  - exact Hnone.
  - apply (Hunknown Hnone). vm_compute. discriminate.
Defined.

(** C3 at work: batch 2 is opened, merged into and closed by the owner. *)
Lemma closed_batch_is_final_witness :
  let s := fst (run [(env 7 100, OpenBatch); (env 8 100, SubmitContribution 2 201)] deployed) in
  let s1 := fst (transact (env 7 100) (CloseBatch 2) s) in
  reachable s
  /\ closeBatch (env 7 100) 2 s = Ok (tt, s1, [BatchClosed 2])
  /\ forall txs e' a, exists err, submitContribution e' 2 a (fst (run txs s1)) = Revert err.
Proof.
  intros s s1.
  assert (reachable s) as Hreach
    by (apply reachable_run; exact (reachable_deploy 7)).
  assert (closeBatch (env 7 100) 2 s = Ok (tt, s1, [BatchClosed 2])) as Hclose
    by (vm_compute; reflexivity).
  conjs; [exact Hreach | exact Hclose |].
  intros txs e' a.
  destruct (closed_batch_is_final s s1 (env 7 100) 2 [BatchClosed 2] Hreach Hclose txs)
    as (_ & _ & _ & Hsub & _).
  exact (proj1 (Hsub e' a)).
Defined.

(** C4, as stated, fails: accounts 9 and 10 hold no role and are two different
    callers, so at most one of them is the oracle; each of them completes the
    pending request 1. *)
Lemma callback_accepts_any_caller :
  myCallback (env 9 200) 1 payload accepted_proof awaiting_callback
  = Ok (tt, callback_post 1 awaiting_callback, [DecryptionCompleted 1 2 100 0])
  /\ myCallback (env 10 200) 1 payload accepted_proof awaiting_callback
     = Ok (tt, callback_post 1 awaiting_callback, [DecryptionCompleted 1 2 100 0]).
Proof.
  split; vm_compute; reflexivity.
Qed.

(** C5, as stated, fails: batch 3 is open, and account 8, who requested a
    summary at time 100, is told [CooldownActive] at time 130. *)
Lemma request_open_batch_cooldown_first :
  batchOpen requested_and_open 3 = true
  /\ lastDecryptionRequest requested_and_open 8 = 100
  /\ requestBatchSummaryDecryption (env_rid 8 130 2) 3 requested_and_open
     = Revert CooldownActive.
Proof.
  conjs; vm_compute; reflexivity.
Qed.

(** C5 (amended) at work: the same caller, once the cooldown is over. *)
Lemma request_on_open_batch_reverts_witness :
  batchOpen requested_and_open 3 = true
  /\ requestBatchSummaryDecryption (env_rid 8 160 2) 3 requested_and_open
     = Revert BatchNotOpen
  /\ transact (env_rid 8 160 2) (RequestBatchSummaryDecryption 3) requested_and_open
     = (requested_and_open, []).
Proof.
  assert (batchOpen requested_and_open 3 = true) as Hopen by (vm_compute; reflexivity).
  destruct (request_on_open_batch_reverts (env_rid 8 160 2) 3 requested_and_open Hopen)
    as [Herr Hsame].
  conjs; [exact Hopen | | exact Hsame].
  rewrite Herr. vm_compute. reflexivity.
Defined.

(** C6, as stated, fails: on the paused contract the delivery for request 1
    goes through and sets the processed flag. *)
Lemma callback_runs_while_paused :
  paused awaiting_callback_paused = true
  /\ processed (contextOf awaiting_callback_paused 1) = false
  /\ myCallback (env 9 200) 1 payload accepted_proof awaiting_callback_paused
     = Ok (tt, callback_post 1 awaiting_callback_paused, [DecryptionCompleted 1 2 100 0])
  /\ processed (contextOf (callback_post 1 awaiting_callback_paused) 1) = true.
Proof.
  conjs; vm_compute; reflexivity.
Qed.

(** C6 (amended) at work: owner 7, contributor 8 and stranger 9 on the paused
    contract. *)
Lemma paused_blocks_batch_operations_witness :
  paused one_open_batch_paused = true
  /\ openBatch (env 7 200) one_open_batch_paused = Revert PausedError
  /\ openBatch (env 9 200) one_open_batch_paused = Revert NotOwner
  /\ submitContribution (env 8 200) 2 201 one_open_batch_paused = Revert PausedError
  /\ reportUsage (env 8 200) 2 201 one_open_batch_paused = Revert NotProvider.
Proof.
  assert (paused one_open_batch_paused = true) as Hp by (vm_compute; reflexivity).
  destruct (paused_blocks_batch_operations one_open_batch_paused (env 7 200) Hp)
    as (Hopen7 & _).
  destruct (paused_blocks_batch_operations one_open_batch_paused (env 9 200) Hp)
    as (Hopen9 & _).
  destruct (paused_blocks_batch_operations one_open_batch_paused (env 8 200) Hp)
    as (_ & _ & Hsub & Hrep & _).
  conjs.
  - exact Hp.
  - rewrite Hopen7. vm_compute. reflexivity.
  - rewrite Hopen9. vm_compute. reflexivity.
  - apply Hsub.
  - rewrite Hrep. vm_compute. reflexivity.
Defined.

(** C7, as stated, fails: batch 2 is open and account 8 is out of cooldown at
    time 100, yet the submission reverts, with [PausedError]. *)
Lemma submitContribution_paused_reverts :
  batchOpen one_open_batch_paused 2 = true
  /\ lastSubmission one_open_batch_paused 8 + cooldownSeconds one_open_batch_paused <= 100
  /\ submitContribution (env 8 100) 2 201 one_open_batch_paused = Revert PausedError.
Proof.
  conjs; vm_compute; try reflexivity. discriminate.
Qed.

(** C7 (amended) at work: one success and the two failures of account 8. *)
Lemma submitContribution_outcome_witness :
  lastSubmission one_open_batch 8 + cooldownSeconds one_open_batch <= MAX_UINT256
  /\ submitContribution (env 8 100) 2 201 one_open_batch
     = Ok (tt, submitContribution_post (env 8 100) 2 201 one_open_batch,
           [ContributionSubmitted 8 2 201])
  /\ submitContribution (env 8 30) 2 201 one_open_batch = Revert CooldownActive
  /\ submitContribution (env 8 100) 5 201 one_open_batch = Revert BatchNotOpen.
Proof.
  assert (lastSubmission one_open_batch 8 + cooldownSeconds one_open_batch <= MAX_UINT256)
    as Hfit by (vm_compute; discriminate).
  conjs.
  - exact Hfit.
  - rewrite (proj1 (submitContribution_outcome (env 8 100) 2 201 one_open_batch Hfit)).
    vm_compute. reflexivity.
  - rewrite (proj1 (submitContribution_outcome (env 8 30) 2 201 one_open_batch Hfit)).
    vm_compute. reflexivity.
  - rewrite (proj1 (submitContribution_outcome (env 8 100) 5 201 one_open_batch Hfit)).
    vm_compute. reflexivity.
Defined.

(** C9, as stated, fails: cooldown 60, batch 2 open, account 8 has never
    submitted, and the submission at time 0 reverts with [CooldownActive]. *)
Lemma first_submission_at_zero_reverts :
  cooldownSeconds one_open_batch = 60
  /\ paused one_open_batch = false
  /\ batchOpen one_open_batch 2 = true
  /\ lastSubmissionTime one_open_batch !! 8 = None
  /\ submitContribution (env 8 0) 2 201 one_open_batch = Revert CooldownActive.
Proof.
  conjs; vm_compute; reflexivity.
Qed.

(** C9 (amended) at work with [t0 = 100]: times 100, 130 and 161. *)
Lemma cooldown_scenario_witness :
  cooldownSeconds one_open_batch = 60
  /\ paused one_open_batch = false
  /\ batchOpen one_open_batch 2 = true
  /\ lastSubmissionTime one_open_batch !! 8 = None
  /\ 60 <= 100
  /\ 100 + 60 <= MAX_UINT256
  /\ submitContribution (env 8 0) 2 201 one_open_batch = Revert CooldownActive
  /\ exists s1 evs1,
       submitContribution (env 8 100) 2 201 one_open_batch = Ok (tt, s1, evs1)
       /\ submitContribution (env 8 130) 2 203 s1 = Revert CooldownActive
       /\ exists s2 evs2, submitContribution (env 8 161) 2 205 s1 = Ok (tt, s2, evs2).
Proof.
  assert (cooldownSeconds one_open_batch = 60) as H1 by (vm_compute; reflexivity).
  assert (paused one_open_batch = false) as H2 by (vm_compute; reflexivity).
  assert (batchOpen one_open_batch 2 = true) as H3 by (vm_compute; reflexivity).
  assert (lastSubmissionTime one_open_batch !! 8 = None) as H4 by (vm_compute; reflexivity).
  assert (60 <= 100) as H5 by lia.
  assert (100 + 60 <= MAX_UINT256) as H6 by (vm_compute; discriminate).
  destruct (cooldown_scenario 8 2 201 203 205 100 0 one_open_batch H1 H2 H3 H4 H5 H6)
    as (Hzero & _ & s1 & evs1 & Hfirst & Hmid & _ & s2 & evs2 & Hlast).
  conjs; auto.
  exists s1, evs1. conjs; [exact Hfirst | exact Hmid |].
  exists s2, evs2. exact Hlast.
Defined.

(** C10 at work: deployer 7 hands the fresh contract over to account 9. *)
Lemma transferOwnership_changes_only_owner_witness :
  transferOwnership (env 7 100) 9 deployed
  = Ok (tt, set_owner 9 deployed, [OwnershipTransferred 7 9])
  /\ provider (set_owner 9 deployed) 7 = true
  /\ provider (set_owner 9 deployed) 9 = false
  /\ isProvider (set_owner 9 deployed) = isProvider deployed.
Proof.
  assert (transferOwnership (env 7 100) 9 deployed
          = Ok (tt, set_owner 9 deployed, [OwnershipTransferred 7 9])) as Hok
    by (vm_compute; reflexivity).
  destruct (transferOwnership_changes_only_owner _ _ _ _ _ Hok)
    as (_ & _ & _ & Hframe & _ & _ & _ & Hdeploy).
  destruct (Hdeploy 7 eq_refl) as [Hold Hnew].
  conjs; [exact Hok | exact Hold | apply Hnew; discriminate | exact Hframe].
Defined.

End Scenarios.

(** ** More scenarios on the test double *)

Lemma mock_handles_initialised : @handles_initialised mockFHE.
Proof.
  unfold handles_initialised. cbn. conjs; try reflexivity.
  intros x a. apply negb_true_iff, N.eqb_neq. lia.
Qed.

Lemma one_open_batch_reachable : @reachable mockFHE one_open_batch.
Proof. apply reachable_run. exact (reachable_deploy 7). Qed.

Lemma awaiting_callback_reachable : @reachable mockFHE awaiting_callback.
Proof. apply reachable_run. exact (reachable_deploy 7). Qed.

Section MoreScenarios.
#[local] Existing Instance mockFHE.

(** X1 at work: accounts 8 and 9 try the owner's entry points and a merge. *)
Lemma strangers_cannot_administer_witness :
  let txs := [ (env 8 100, Pause); (env 9 100, CloseBatch 2);
               (env 8 100, SubmitContribution 2 201); (env 9 100, TransferOwnership 9) ] in
  Forall (fun tx => msg_sender (fst tx) <> owner one_open_batch) txs
  /\ adminView (fst (run txs one_open_batch)) = adminView one_open_batch.
Proof.
  intros txs.
  assert (Forall (fun tx => msg_sender (fst tx) <> owner one_open_batch) txs) as Hall
    by (repeat (constructor; [vm_compute; discriminate |]); constructor).
  split; [exact Hall |].
  exact (strangers_cannot_administer txs one_open_batch Hall).
Defined.

(** X2 at work: 7 hands the contract to 9. *)
Lemma old_owner_loses_control_witness :
  transferOwnership (env 7 100) 9 deployed
  = Ok (tt, set_owner 9 deployed, [OwnershipTransferred 7 9])
  /\ 9 <> msg_sender (env 7 100)
  /\ call (env 7 200) OpenBatch (set_owner 9 deployed) = Revert NotOwner
  /\ call (env 9 200) OpenBatch (set_owner 9 deployed) <> Revert NotOwner.
Proof.
  assert (transferOwnership (env 7 100) 9 deployed
          = Ok (tt, set_owner 9 deployed, [OwnershipTransferred 7 9])) as Hok
    by (vm_compute; reflexivity).
  assert (9 <> msg_sender (env 7 100)) as Hne by (vm_compute; discriminate).
  destruct (old_owner_loses_control _ _ _ _ _ Hok Hne) as [Hold Hnew].
  conjs; [exact Hok | exact Hne | |].
  - apply Hold; reflexivity.
  - apply Hnew; reflexivity.
Defined.

(** X3 at work: the owner makes 8 a provider, twice. *)
Lemma provider_add_remove_witness :
  let s1 := set_isProvider (<[8 := true]> (isProvider deployed)) deployed in
  addProvider (env 7 100) 8 deployed = Ok (tt, s1, [ProviderAdded 8])
  /\ provider s1 8 = true
  /\ addProvider (env 7 100) 8 s1 = Ok (tt, s1, []).
Proof.
  intros s1.
  assert (addProvider (env 7 100) 8 deployed = Ok (tt, s1, [ProviderAdded 8])) as Hok
    by (vm_compute; reflexivity).
  destruct (provider_add_remove _ _ _ _ _ Hok) as (Hp & _ & _ & Hagain & _).
  conjs; [exact Hok | exact Hp | exact Hagain].
Defined.

(** X4 at work: the owner pauses and unpauses the contract with one open
    batch. *)
Lemma pause_unpause_round_trip_witness :
  pause (env 7 100) one_open_batch
  = Ok (tt, set_paused true one_open_batch, [Paused 7])
  /\ unpause (env 7 100) (set_paused true one_open_batch)
     = Ok (tt, one_open_batch, [Unpaused 7]).
Proof.
  assert (pause (env 7 100) one_open_batch
          = Ok (tt, set_paused true one_open_batch, [Paused 7])) as Hok
    by (vm_compute; reflexivity).
  destruct (pause_unpause_round_trip _ _ _ _ Hok) as (_ & _ & _ & Hback & _).
  conjs; [exact Hok | exact Hback].
Defined.

(** X5 at work: the cooldown is raised to the largest value after 8 has
    contributed. *)
Lemma cooldown_overflow_locks_out_witness :
  let s' := set_cooldownSeconds MAX_UINT256 after_first_contribution in
  setCooldownSeconds (env 7 150) MAX_UINT256 after_first_contribution
  = Ok (tt, s', [CooldownSecondsUpdated 60 MAX_UINT256])
  /\ paused after_first_contribution = false
  /\ 0 < lastSubmission after_first_contribution (msg_sender (env 8 1000000))
  /\ submitContribution (env 8 1000000) 2 5 s' = Revert ArithmeticPanic.
Proof.
  intros s'.
  assert (setCooldownSeconds (env 7 150) MAX_UINT256 after_first_contribution
          = Ok (tt, s', [CooldownSecondsUpdated 60 MAX_UINT256])) as Hok
    by (vm_compute; reflexivity).
  assert (paused after_first_contribution = false) as Hp by (vm_compute; reflexivity).
  assert (0 < lastSubmission after_first_contribution (msg_sender (env 8 1000000))) as Hlast
    by (vm_compute; reflexivity).
  destruct (cooldown_overflow_locks_out _ _ _ _ Hok Hp (env 8 1000000) Hlast) as [Hsub _].
  conjs; [exact Hok | exact Hp | exact Hlast | apply Hsub].
Defined.

(** X6 at work: the owner, a provider, contributes at time 100 and reports
    usage at time 130. *)
Lemma merges_share_one_cooldown_witness :
  let s' := fst (transact (env 7 100) (SubmitContribution 2 201) one_open_batch) in
  isMerge (SubmitContribution 2 201) = true
  /\ call (env 7 100) (SubmitContribution 2 201) one_open_batch
     = Ok (tt, s', [ContributionSubmitted 7 2 201])
  /\ block_timestamp (env 7 130) < block_timestamp (env 7 100) + cooldownSeconds one_open_batch
  /\ reportUsage (env 7 130) 2 301 s' = Revert CooldownActive.
Proof.
  intros s'.
  assert (call (env 7 100) (SubmitContribution 2 201) one_open_batch
          = Ok (tt, s', [ContributionSubmitted 7 2 201])) as Hok
    by (vm_compute; reflexivity).
  assert (block_timestamp (env 7 130)
          < block_timestamp (env 7 100) + cooldownSeconds one_open_batch) as Hlt
    by (vm_compute; reflexivity).
  assert (block_timestamp (env 7 100) + cooldownSeconds one_open_batch <= MAX_UINT256) as Hfit
    by (vm_compute; discriminate).
  destruct (merges_share_one_cooldown
              (env 7 100) (SubmitContribution 2 201) one_open_batch s' _ eq_refl Hok)
    as (_ & _ & Hblock).
  destruct (Hblock (env 7 130) 2 301 eq_refl Hlt Hfit) as [_ Hrep].
  conjs; [reflexivity | exact Hok | exact Hlt |].
  rewrite Hrep. vm_compute. reflexivity.
Defined.

(** X7 at work: after 8 has contributed at time 100, the owner and account 9
    act; 8's timestamp is still 100. *)
Lemma timers_only_move_by_own_calls_witness :
  let txs := [ (env 7 200, SubmitContribution 2 5); (env 7 300, SetCooldownSeconds 5);
               (env 9 300, SubmitContribution 2 9) ] in
  Forall (fun tx => msg_sender (fst tx) <> 8) txs
  /\ lastSubmission (fst (run txs after_first_contribution)) 8 = 100.
Proof.
  intros txs.
  assert (Forall (fun tx => msg_sender (fst tx) <> 8) txs) as Hall
    by (repeat (constructor; [vm_compute; discriminate |]); constructor).
  split; [exact Hall |].
  rewrite (proj1 (timers_only_move_by_own_calls 8 txs after_first_contribution Hall)).
  vm_compute. reflexivity.
Defined.

(** X8 at work: batch 2 stays open while the owner pauses, unpauses, opens
    and closes batch 3 and hands the contract over. *)
Lemma open_until_closed_witness :
  let txs := [ (env 7 100, Pause); (env 7 100, Unpause); (env 7 100, OpenBatch);
               (env 7 100, CloseBatch 3); (env 7 100, TransferOwnership 9) ] in
  batchOpen one_open_batch 2 = true
  /\ Forall (fun tx => closes 2 tx = false) txs
  /\ batchOpen (fst (run txs one_open_batch)) 2 = true.
Proof.
  intros txs.
  assert (batchOpen one_open_batch 2 = true) as Hopen by (vm_compute; reflexivity).
  assert (Forall (fun tx => closes 2 tx = false) txs) as Hall by (repeat constructor).
  conjs; [exact Hopen | exact Hall |].
  exact (open_until_closed 2 txs one_open_batch Hopen Hall).
Defined.

(** X10 at work: request 1 is still pending when a delivery comes in at time
    999 from account 9. *)
Lemma registered_request_completes_witness :
  FHE_isInitialized 0 = false
  /\ decryptionContexts awaiting_callback !! 1 = Some (contextOf awaiting_callback 1)
  /\ processed (contextOf awaiting_callback 1) = false
  /\ FHE_checkSignatures 1 payload accepted_proof = true
  /\ (64 <= length payload)%nat
  /\ myCallback (env 9 999) 1 payload accepted_proof awaiting_callback
     = Ok (tt, callback_post 1 awaiting_callback, [DecryptionCompleted 1 2 100 0]).
Proof.
  assert (FHE_isInitialized 0 = false) as Hzero by reflexivity.
  assert (decryptionContexts awaiting_callback !! 1 = Some (contextOf awaiting_callback 1))
    as Hlook by (vm_compute; reflexivity).
  assert (processed (contextOf awaiting_callback 1) = false) as Hp by (vm_compute; reflexivity).
  assert (FHE_checkSignatures 1 payload accepted_proof = true) as Hsig by reflexivity.
  assert (64 <= length payload)%nat as Hlen by (vm_compute; lia).
  destruct (registered_request_completes awaiting_callback 1 _ Hzero
              awaiting_callback_reachable Hlook) as [_ Hdone].
  conjs; [exact Hzero | exact Hlook | exact Hp | exact Hsig | exact Hlen |].
  rewrite (Hdone Hp (env 9 999) payload accepted_proof Hsig Hlen).
  vm_compute. reflexivity.
Defined.

(** X11 at work on the contract awaiting its callback (batch 2 allocated and
    closed, counter 2): account 9 may request batch 2, not batch 1 or 7. *)
Lemma request_needs_allocated_closed_batch_witness :
  paused awaiting_callback = false
  /\ lastDecryptionRequest awaiting_callback 9 + cooldownSeconds awaiting_callback <= 100
  /\ (exists s' evs,
        requestBatchSummaryDecryption (env_rid 9 100 2) 2 awaiting_callback = Ok (tt, s', evs))
  /\ requestBatchSummaryDecryption (env_rid 9 100 2) 1 awaiting_callback = Revert InvalidBatchId
  /\ requestBatchSummaryDecryption (env_rid 9 100 2) 7 awaiting_callback = Revert InvalidBatchId.
Proof.
  assert (paused awaiting_callback = false) as Hp by (vm_compute; reflexivity).
  assert (lastDecryptionRequest awaiting_callback (msg_sender (env_rid 9 100 2))
          + cooldownSeconds awaiting_callback <= MAX_UINT256) as Hfit
    by (vm_compute; discriminate).
  assert (lastDecryptionRequest awaiting_callback (msg_sender (env_rid 9 100 2))
          + cooldownSeconds awaiting_callback <= block_timestamp (env_rid 9 100 2)) as Hpast
    by (vm_compute; discriminate).
  pose proof (fun b => request_needs_allocated_closed_batch (env_rid 9 100 2) b
                         awaiting_callback mock_handles_initialised
                         awaiting_callback_reachable Hp Hfit Hpast) as Hreq.
  conjs; [exact Hp | exact Hpast | | |].
  - apply (proj1 (Hreq 2)). vm_compute. repeat split; discriminate.
  - apply (proj2 (Hreq 1)). left. reflexivity.
  - apply (proj2 (Hreq 7)). right. vm_compute. reflexivity.
Defined.

(** X12 at work: of three contributions to batch 2 the second is inside 8's
    cooldown; the accumulator adds the first and the third to the zero
    handle. *)
Lemma accumulators_fold_accepted_merges_witness :
  let txs := [ (env 8 100, SubmitContribution 2 201); (env 8 130, SubmitContribution 2 203);
               (env 9 100, SubmitContribution 2 205); (env 7 100, ReportUsage 2 301) ] in
  2 <= currentBatchId one_open_batch
  /\ accepted (contributionTo 2) txs one_open_batch = [201; 205]
  /\ contributionsOf (fst (run txs one_open_batch)) 2
     = FHE_add (FHE_add (FHE_asEuint32 0) 201) 205
  /\ contributionEvents 2 (snd (run txs one_open_batch)) = [201; 205].
Proof.
  intros txs.
  assert (2 <= currentBatchId one_open_batch) as Hle by (vm_compute; discriminate).
  destruct (accumulators_fold_accepted_merges 2 txs one_open_batch Hle)
    as (Hc & _ & Hev & _).
  conjs; [exact Hle | vm_compute; reflexivity | |].
  - rewrite Hc. vm_compute. reflexivity.
  - rewrite Hev. vm_compute. reflexivity.
Defined.

(** X14 at work: the accepted delivery for request 1, and the same buffer with
    one more byte. *)
Lemma callback_totals_from_first_64_bytes_witness :
  myCallback (env 9 200) 1 payload accepted_proof awaiting_callback
  = Ok (tt, callback_post 1 awaiting_callback, [DecryptionCompleted 1 2 100 0])
  /\ (64 <= length payload)%nat
  /\ abi_decode_uint256 (sub_bytes (payload ++ [Byte.xff]) 0 32)
     = abi_decode_uint256 (firstn 32 payload).
Proof.
  assert (myCallback (env 9 200) 1 payload accepted_proof awaiting_callback
          = Ok (tt, callback_post 1 awaiting_callback, [DecryptionCompleted 1 2 100 0]))
    as Hok by (vm_compute; reflexivity).
  destruct (callback_totals_from_first_64_bytes _ _ _ _ _ _ _ Hok)
    as (Hlen & tc & tu & _ & Htc & _ & _ & _ & Hextra).
  conjs; [exact Hok | exact Hlen |].
  rewrite (proj1 (Hextra [Byte.xff])). exact Htc.
Defined.

(** X15 at work: a stranger's [pause], the owner adding themselves as
    provider again, and a contribution to a batch that does not exist. *)
Lemma silent_trace_changes_nothing_witness :
  let txs := [ (env 9 100, Pause); (env 7 100, AddProvider 7);
               (env 8 100, SubmitContribution 2 5) ] in
  snd (run txs deployed) = []
  /\ fst (run txs deployed) = deployed.
Proof.
  intros txs.
  assert (snd (run txs deployed) = []) as Hsilent by (vm_compute; reflexivity).
  split; [exact Hsilent |].
  exact (silent_trace_changes_nothing txs deployed Hsilent).
Defined.

(** X16 at work: the first contribution to the freshly opened batch 2. *)
Lemma merge_adds_to_initialised_accumulator_witness :
  let s' := submitContribution_post (env 8 100) 2 201 one_open_batch in
  submitContribution (env 8 100) 2 201 one_open_batch
  = Ok (tt, s', [ContributionSubmitted 8 2 201])
  /\ contributionsOf s' 2 = FHE_add (contributionsOf one_open_batch 2) 201.
Proof.
  intros s'.
  assert (submitContribution (env 8 100) 2 201 one_open_batch
          = Ok (tt, s', [ContributionSubmitted 8 2 201])) as Hok
    by (vm_compute; reflexivity).
  destruct (merge_adds_to_initialised_accumulator (env 8 100) 2 201 one_open_batch
              mock_handles_initialised one_open_batch_reachable) as [Hsub _].
  split; [exact Hok |]. exact (proj2 (Hsub _ _ Hok)).
Defined.

(** C8 at work: of four attempts, across two pause/unpause cycles, the two
    that go through allocate 2 and 3; the next one allocates 4. *)
Lemma openBatch_ids_consecutive_witness :
  let s := fst (run openings_across_pauses deployed) in
  openedIds (snd (run openings_across_pauses deployed)) = [2; 3]
  /\ openings openings_across_pauses deployed = 2%nat
  /\ openBatch (env 7 200) s = Ok (tt, openBatch_post s, [BatchOpened 4])
  /\ currentBatchId (openBatch_post s) = 4
  /\ batchOpen (openBatch_post s) 4 = true.
Proof.
  intros s.
  assert (openBatch (env 7 200) s = Ok (tt, openBatch_post s, [BatchOpened 4])) as Hok
    by (vm_compute; reflexivity).
  destruct (openBatch_ids_consecutive 7 openings_across_pauses)
    as (Hstep & Hids & Hcount & _ & _ & _ & _ & _).
  destruct (Hstep _ _ _ _ Hok) as (_ & Hcur & Hopen & _).
  conjs.
  - vm_compute. reflexivity.
  - vm_compute. reflexivity.
  - exact Hok.
  - rewrite Hcur. vm_compute. reflexivity.
  - replace 4 with (currentBatchId s + 1) by (vm_compute; reflexivity). exact Hopen.
Defined.

End MoreScenarios.
